(** * Gaussian splatting utilities: a shallow embedding and its properties

    The development follows [src/model/render/gaussian_utils.py].

    Numeric values are modelled as real numbers: [torch] and [numpy]
    floating point arithmetic is idealised, so that a value stored in an
    [f4] field and read back is the value itself.  Tensors keep their
    shape next to their contents, Python exceptions are the errors of a
    small result monad. *)

From Stdlib Require Import Reals Lra Lia ZArith String Ascii Bool List.
From Stdlib Require Import DecimalString Permutation Sorted.
From Stdlib Require Import RNsatz.
Import ListNotations.

Local Open Scope R_scope.

(** ** Math kernels (one primitive at a time) *)

Module Kernels.

(** A row of a [N x 4] rotation tensor, in (w, x, y, z) order. *)
Record quat := Quat { q0 : R; q1 : R; q2 : R; q3 : R }.

(** A row of a [N x 3] tensor. *)
Record vec3 := Vec3 { v0 : R; v1 : R; v2 : R }.

(** One slice [M[n, :, :]] of a [N x 3 x 3] tensor. *)
Record mat3 := Mat3 {
  m00 : R; m01 : R; m02 : R;
  m10 : R; m11 : R; m12 : R;
  m20 : R; m21 : R; m22 : R }.

(** One row of the [N x 6] tensor filled by [strip_lowerdiag]. *)
Record sym6 := Sym6 { xx : R; xy : R; xz : R; yy : R; yz : R; zz : R }.

Definition zeros3 : mat3 := Mat3 0 0 0 0 0 0 0 0 0.

Definition identity3 : mat3 := Mat3 1 0 0 0 1 0 0 0 1.

(** [A @ B] *)
Definition matmul (A B : mat3) : mat3 :=
  Mat3 (m00 A * m00 B + m01 A * m10 B + m02 A * m20 B)
       (m00 A * m01 B + m01 A * m11 B + m02 A * m21 B)
       (m00 A * m02 B + m01 A * m12 B + m02 A * m22 B)
       (m10 A * m00 B + m11 A * m10 B + m12 A * m20 B)
       (m10 A * m01 B + m11 A * m11 B + m12 A * m21 B)
       (m10 A * m02 B + m11 A * m12 B + m12 A * m22 B)
       (m20 A * m00 B + m21 A * m10 B + m22 A * m20 B)
       (m20 A * m01 B + m21 A * m11 B + m22 A * m21 B)
       (m20 A * m02 B + m21 A * m12 B + m22 A * m22 B).

(** [A.transpose(1, 2)] on one slice *)
Definition transpose (A : mat3) : mat3 :=
  Mat3 (m00 A) (m10 A) (m20 A)
       (m01 A) (m11 A) (m21 A)
       (m02 A) (m12 A) (m22 A).

Definition det (A : mat3) : R :=
  m00 A * (m11 A * m22 A - m12 A * m21 A)
  - m01 A * (m10 A * m22 A - m12 A * m20 A)
  + m02 A * (m10 A * m21 A - m11 A * m20 A).

(** [strip_lowerdiag]: entries (0,0) (0,1) (0,2) (1,1) (1,2) (2,2). *)
Definition strip_lowerdiag (L : mat3) : sym6 :=
  Sym6 (m00 L) (m01 L) (m02 L) (m11 L) (m12 L) (m22 L).

Definition strip_symmetric (sym : mat3) : sym6 := strip_lowerdiag sym.

(** The symmetric matrix that six packed entries describe. *)
Definition unpack (c : sym6) : mat3 :=
  Mat3 (xx c) (xy c) (xz c)
       (xy c) (yy c) (yz c)
       (xz c) (yz c) (zz c).

(** The quadratic form [v^T A v]. *)
Definition quadratic_form (A : mat3) (v : vec3) : R :=
  v0 v * (m00 A * v0 v + m01 A * v1 v + m02 A * v2 v)
  + v1 v * (m10 A * v0 v + m11 A * v1 v + m12 A * v2 v)
  + v2 v * (m20 A * v0 v + m21 A * v1 v + m22 A * v2 v).

Definition positive_semidefinite (A : mat3) : Prop :=
  forall v : vec3, 0 <= quadratic_form A v.

Definition norm (r : quat) : R :=
  sqrt (q0 r * q0 r + q1 r * q1 r + q2 r * q2 r + q3 r * q3 r).

(** [r / norm[:, None]] on one row.  For a row of norm zero the code
    divides zero by zero and every entry is [nan], which the real division
    does not show: the kernels describe the code for rows of nonzero norm
    only, and the theorems on them assume such rows. *)
Definition qdiv (r : quat) (n : R) : quat :=
  Quat (q0 r / n) (q1 r / n) (q2 r / n) (q3 r / n).

(** [c * q] *)
Definition qscale (c : R) (r : quat) : quat :=
  Quat (c * q0 r) (c * q1 r) (c * q2 r) (c * q3 r).

Definition qneg (r : quat) : quat := qscale (-1) r.

Definition build_rotation (r0 : quat) : mat3 :=
  let norm := norm r0 in
  let q := qdiv r0 norm in
  let r := q0 q in
  let x := q1 q in
  let y := q2 q in
  let z := q3 q in
  Mat3 (1 - 2 * (y * y + z * z)) (2 * (x * y - r * z)) (2 * (x * z + r * y))
       (2 * (x * y + r * z)) (1 - 2 * (x * x + z * z)) (2 * (y * z - r * x))
       (2 * (x * z - r * y)) (2 * (y * z + r * x)) (1 - 2 * (x * x + y * y)).

(** The matrix [L] of [build_scaling_rotation] before the product:
    zero but for the scales on its diagonal. *)
Definition diag (s : vec3) : mat3 :=
  Mat3 (v0 s) 0 0
       0 (v1 s) 0
       0 0 (v2 s).

Definition build_scaling_rotation (s : vec3) (r : quat) : mat3 :=
  let L := diag s in
  let R := build_rotation r in
  matmul R L.

(** [scaling_modifier * scaling] *)
Definition vscale (c : R) (s : vec3) : vec3 :=
  Vec3 (c * v0 s) (c * v1 s) (c * v2 s).

Definition build_covariance_from_scaling_rotation
    (scaling : vec3) (scaling_modifier : R) (rotation : quat) : sym6 :=
  let L := build_scaling_rotation (vscale scaling_modifier scaling) rotation in
  let actual_covariance := matmul L (transpose L) in
  let symm := strip_symmetric actual_covariance in
  symm.

(** The rotation matrix written with the squared norm: every entry is a
    quadratic form in the raw quaternion divided by its squared norm. *)
Definition rotation_of_products (r : quat) : mat3 :=
  let s := q0 r * q0 r + q1 r * q1 r + q2 r * q2 r + q3 r * q3 r in
  Mat3 (1 - 2 * ((q2 r * q2 r + q3 r * q3 r) / s))
       (2 * ((q1 r * q2 r - q0 r * q3 r) / s))
       (2 * ((q1 r * q3 r + q0 r * q2 r) / s))
       (2 * ((q1 r * q2 r + q0 r * q3 r) / s))
       (1 - 2 * ((q1 r * q1 r + q3 r * q3 r) / s))
       (2 * ((q2 r * q3 r - q0 r * q1 r) / s))
       (2 * ((q1 r * q3 r - q0 r * q2 r) / s))
       (2 * ((q2 r * q3 r + q0 r * q1 r) / s))
       (1 - 2 * ((q1 r * q1 r + q2 r * q2 r) / s)).

(** [orthonormal A]: rows and columns are orthonormal. *)
Definition orthonormal (A : mat3) : Prop :=
  matmul A (transpose A) = identity3 /\ matmul (transpose A) A = identity3.

(** copied from: utils.sh_utils *)
Definition C0 : R := 0.28209479177387814.

Definition RGB2SH (rgb : R) : R := (rgb - 0.5) / C0.

Definition SH2RGB (sh : R) : R := sh * C0 + 0.5.

End Kernels.

(** ** Python results, strings and sorting *)

Module Py.

Inductive error : Type :=
| AssertionError
| NotImplementedError
| ValueError
| IndexError
| AttributeError
| RuntimeError.

Inductive result (A : Type) : Type :=
| Ok (a : A)
| Err (e : error).

Arguments Ok {A} a.
Arguments Err {A} e.

Definition bind {A B : Type} (r : result A) (k : A -> result B) : result B :=
  match r with
  | Ok a => k a
  | Err e => Err e
  end.

Notation "x <- r ;; k" := (bind r (fun x => k))
  (at level 61, r at next level, right associativity).

(** [assert b] *)
Definition py_assert (b : bool) : result unit :=
  if b then Ok tt else Err AssertionError.

Fixpoint mapM {A B : Type} (f : A -> result B) (l : list A) : result (list B) :=
  match l with
  | [] => Ok []
  | a :: l' => b <- f a ;; bs <- mapM f l' ;; Ok (b :: bs)
  end.

(** [f"{i}"] for a natural number *)
Definition str (i : nat) : string := NilEmpty.string_of_uint (Nat.to_uint i).

(** [s.startswith(prefix)] *)
Definition startswith (s prefix : string) : bool := String.prefix prefix s.

Fixpoint has_underscore (s : string) : bool :=
  match s with
  | EmptyString => false
  | String c rest => Ascii.eqb c "_" || has_underscore rest
  end.

(** [s.split("_")[-1]]: what follows the last underscore, the whole string
    when there is none. *)
Fixpoint split_last (s : string) : string :=
  match s with
  | EmptyString => EmptyString
  | String c rest =>
      if has_underscore rest then split_last rest
      else if Ascii.eqb c "_" then rest else s
  end.

Definition is_digit (c : ascii) : bool :=
  (48 <=? nat_of_ascii c)%nat && (nat_of_ascii c <=? 57)%nat.

Definition digit_value (c : ascii) : Z := Z.of_nat (nat_of_ascii c - 48).

(** Decimal digits, single underscores allowed between two digits. *)
Fixpoint parse_digits (after_digit : bool) (acc : Z) (s : string) : option Z :=
  match s with
  | EmptyString => if after_digit then Some acc else None
  | String c rest =>
      if is_digit c then parse_digits true (10 * acc + digit_value c) rest
      else if Ascii.eqb c "_" && after_digit then parse_digits false acc rest
      else None
  end.

(** [int(s)] on the strings that can be part of a property name of a PLY
    header (ASCII, no white space): an optional sign and decimal digits.
    [None] is Python's [ValueError]. *)
Definition int (s : string) : option Z :=
  match s with
  | String "+" rest => parse_digits false 0 rest
  | String "-" rest => option_map Z.opp (parse_digits false 0 rest)
  | _ => parse_digits false 0 s
  end.

(** The key of [sorted(names, key=lambda x: int(x.split("_")[-1]))]. *)
Definition suffix_key (x : string) : result Z :=
  match int (split_last x) with
  | Some k => Ok k
  | None => Err ValueError
  end.

Fixpoint insert_by_key (k : Z) (x : string) (l : list (Z * string))
  : list (Z * string) :=
  match l with
  | [] => [(k, x)]
  | (k', y) :: l' =>
      if (k <=? k')%Z then (k, x) :: l
      else (k', y) :: insert_by_key k x l'
  end.

(** A stable sort of keyed names, as Python's [sorted] is. *)
Definition sort_keyed (l : list (Z * string)) : list (Z * string) :=
  fold_right (fun kx acc => insert_by_key (fst kx) (snd kx) acc) [] l.

(** [sorted(names, key=lambda x: int(x.split("_")[-1]))] *)
Definition sorted_by_suffix (names : list string) : result (list string) :=
  keyed <- mapM (fun x => k <- suffix_key x ;; Ok (k, x)) names ;;
  Ok (map snd (sort_keyed keyed)).

(** The order of the keys of two keyed names. *)
Definition key_le (a b : Z * string) : Prop := (fst a <= fst b)%Z.

(** [x] and [y] have numeric suffixes and that of [x] is not the larger. *)
Definition suffix_le (x y : string) : Prop :=
  exists kx ky : Z,
    suffix_key x = Ok kx /\ suffix_key y = Ok ky /\ (kx <= ky)%Z.

Fixpoint index_of (name : string) (l : list string) : option nat :=
  match l with
  | [] => None
  | x :: l' =>
      if String.eqb name x then Some O
      else option_map S (index_of name l')
  end.

End Py.

(** ** Tensors and arrays *)

Module Tensor.
Import Py.

(** A tensor of rank one, two or three: its trailing dimensions and its
    contents as nested rows.  The leading dimension is the number of rows. *)
Inductive tensor : Type :=
| T1 (v : list R)
| T2 (cols : nat) (rows : list (list R))
| T3 (d1 d2 : nat) (slabs : list (list (list R))).

(** Every row has the length the shape says. *)
Definition well_shaped (t : tensor) : Prop :=
  match t with
  | T1 _ => True
  | T2 c rows => Forall (fun r => length r = c) rows
  | T3 a b slabs =>
      Forall (fun s => length s = a /\ Forall (fun r => length r = b) s) slabs
  end.

(** [torch.empty(0)] *)
Definition empty0 : tensor := T1 [].

Definition shape (t : tensor) : list nat :=
  match t with
  | T1 v => [length v]
  | T2 c rows => [length rows; c]
  | T3 a b slabs => [length slabs; a; b]
  end.

(** [t.shape[i]] *)
Definition shape_at (t : tensor) (i : nat) : result nat :=
  match nth_error (shape t) i with
  | Some n => Ok n
  | None => Err IndexError
  end.

(** [t.shape[0]] *)
Definition size0 (t : tensor) : nat :=
  match t with
  | T1 v => length v
  | T2 _ rows => length rows
  | T3 _ _ slabs => length slabs
  end.

(** An elementwise function. *)
Definition map_tensor (f : R -> R) (t : tensor) : tensor :=
  match t with
  | T1 v => T1 (map f v)
  | T2 c rows => T2 c (map (map f) rows)
  | T3 a b slabs => T3 a b (map (map (map f)) slabs)
  end.

(** The transpose of one [a x b] slab, given [b]. *)
Definition transpose_rows (b : nat) (m : list (list R)) : list (list R) :=
  map (fun j => map (fun row => nth j row 0) m) (seq 0 b).

(** [t.transpose(1, 2)] *)
Definition transpose12 (t : tensor) : result tensor :=
  match t with
  | T3 a b slabs => Ok (T3 b a (map (transpose_rows b) slabs))
  | _ => Err IndexError
  end.

(** [t.flatten(start_dim=1)] *)
Definition flatten1 (t : tensor) : result tensor :=
  match t with
  | T3 a b slabs => Ok (T2 (a * b) (map (@concat R) slabs))
  | T2 c rows => Ok (T2 c rows)
  | T1 _ => Err IndexError
  end.

(** [t[:, 1:, :]] *)
Definition slice_from1 (t : tensor) : result tensor :=
  match t with
  | T3 a b slabs => Ok (T3 (a - 1) b (map (skipn 1) slabs))
  | _ => Err IndexError
  end.

(** [t[:, 0, :]] *)
Definition select0 (t : tensor) : result tensor :=
  match t with
  | T3 a b slabs =>
      if (a =? 0)%nat then Err IndexError
      else Ok (T2 b (map (fun s => nth 0 s []) slabs))
  | _ => Err IndexError
  end.

(** Rows put side by side. *)
Definition hstack (A B : list (list R)) : list (list R) :=
  map (fun ab => fst ab ++ snd ab) (combine A B).

(** [np.concatenate(arrays, axis=1)] *)
Fixpoint concatenate_axis1 (arrays : list tensor) : result tensor :=
  match arrays with
  | [] => Err ValueError
  | T2 c rows :: rest =>
      match rest with
      | [] => Ok (T2 c rows)
      | _ :: _ =>
          r <- concatenate_axis1 rest ;;
          match r with
          | T2 c' rows' =>
              if (length rows =? length rows')%nat
              then Ok (T2 (c + c') (hstack rows rows'))
              else Err ValueError
          | _ => Err ValueError
          end
      end
  | _ :: _ => Err ValueError
  end.

(** Entries [o], ..., [o + w - 1] of a row. *)
Definition slice (o w : nat) (row : list R) : list R :=
  map (fun j => nth j row 0) (seq o w).

(** One row of [a * b] entries cut into [a] rows of [b]: [reshape]. *)
Definition chunks (a b : nat) (row : list R) : list (list R) :=
  map (fun c => slice (c * b) b row) (seq 0 a).

(** [np.stack(cols, axis=1)] for columns of [n] entries. *)
Definition stack_axis1 (n : nat) (cols : list (list R)) : list (list R) :=
  map (fun i => map (fun c => nth i c 0) cols) (seq 0 n).

(** All the entries of a tensor, in row-major order. *)
Definition entries (t : tensor) : list R :=
  match t with
  | T1 v => v
  | T2 _ rows => concat rows
  | T3 _ _ slabs => concat (map (@concat R) slabs)
  end.

End Tensor.

(** ** Camera *)

Module Camera.

(** The intrinsics part of a camera.  The pose matrices ([C2W], its
    inverse, the projection matrix and their product) do not enter these
    fields and are not part of the record. *)
Record t := {
  znear : R;
  zfar : R;
  h : Z;
  w : Z;
  tanfovX : R;
  tanfovY : R;
  fovX : R;
  fovY : R;
  shiftX : R;
  shiftY : R }.

Definition __init__ (fx fy cx cy : R) (h w : Z) : t :=
  let tanfovX := 1 / (2 * fx) in
  let tanfovY := 1 / (2 * fy) in
  {| znear := 0.01;
     zfar := 100.0;
     h := h;
     w := w;
     tanfovX := tanfovX;
     tanfovY := tanfovY;
     fovX := 2 * atan tanfovX;
     fovY := 2 * atan tanfovY;
     shiftX := 2 * cx - 1;
     shiftY := 2 * cy - 1 |}.

(** [getProjectionMatrix], the function local to [__init__]: the 4 x 4
    matrix [P], row by row. *)
Definition getProjectionMatrix (znear zfar fovX fovY shiftX shiftY : R)
  : list (list R) :=
  let tanHalfFovY := tan (fovY / 2) in
  let tanHalfFovX := tan (fovX / 2) in
  let top := tanHalfFovY * znear in
  let bottom := - top in
  let right := tanHalfFovX * znear in
  let left := - right in
  let z_sign := 1.0 in
  [[2.0 * znear / (right - left); 0;
    (right + left) / (right - left) + shiftX; 0];
   [0; 2.0 * znear / (top - bottom);
    (top + bottom) / (top - bottom) + shiftY; 0];
   [0; 0; z_sign * zfar / (zfar - znear);
    - (zfar * znear) / (zfar - znear)];
   [0; 0; z_sign; 0]].

(** [self.projection_matrix]: the transpose of [P]. *)
Definition projection_matrix (self : t) : list (list R) :=
  Tensor.transpose_rows 4
    (getProjectionMatrix (znear self) (zfar self) (fovX self) (fovY self)
       (shiftX self) (shiftY self)).

End Camera.

(** ** Math kernels on batches *)

Module Batch.
Import Py Tensor Kernels.

Definition quat_of_row (r : list R) : quat :=
  Quat (nth 0 r 0) (nth 1 r 0) (nth 2 r 0) (nth 3 r 0).

Definition vec3_of_row (r : list R) : vec3 :=
  Vec3 (nth 0 r 0) (nth 1 r 0) (nth 2 r 0).

Definition row_of_sym6 (c : sym6) : list R :=
  [xx c; xy c; xz c; yy c; yz c; zz c].

(** A row of the rotation tensor multiplied by a nonzero scalar. *)
Definition rescaled (r r' : list R) : Prop :=
  exists c : R, c <> 0 /\ r' = map (Rmult c) r.

(** [build_rotation] on a [N x 4] tensor: the columns 0 to 3 are read.
    On a tensor of three dimensions [r[:, k]] is a matrix, and the
    assignment [R[:, 0, 0] = ...] of a matrix to a vector raises
    [RuntimeError], unless the matrix is 1 x 1 (leading dimensions of size
    one are dropped). *)
Definition build_rotation (r : tensor) : result (list mat3) :=
  match r with
  | T1 _ => Err IndexError
  | T2 c rows =>
      if (c <? 4)%nat then Err IndexError
      else Ok (map (fun row => Kernels.build_rotation (quat_of_row row)) rows)
  | T3 a b slabs =>
      if (a <? 4)%nat then Err IndexError
      else match slabs with
           | [s] =>
               if (b =? 1)%nat
               then Ok [Kernels.build_rotation
                          (Quat (nth 0 (nth 0 s []) 0) (nth 0 (nth 1 s []) 0)
                                (nth 0 (nth 2 s []) 0) (nth 0 (nth 3 s []) 0))]
               else Err RuntimeError
           | _ => Err RuntimeError
           end
  end.

(** The diagonal matrices [L] of [build_scaling_rotation].  On a tensor
    of three dimensions [s[:, 0]] is a matrix, and its assignment to the
    vector [L[:, 0, 0]] raises [RuntimeError], unless the matrix is 1 x 1. *)
Definition diagonals (s : tensor) : result (list mat3) :=
  match s with
  | T1 _ => Err IndexError
  | T2 c rows =>
      if (c <? 3)%nat then Err IndexError
      else Ok (map (fun row => diag (vec3_of_row row)) rows)
  | T3 a b slabs =>
      if (a =? 0)%nat then Err IndexError
      else match slabs with
           | [m] =>
               if (b =? 1)%nat
               then if (a <? 3)%nat then Err IndexError
                    else Ok [diag (Vec3 (nth 0 (nth 0 m []) 0)
                                        (nth 0 (nth 1 m []) 0)
                                        (nth 0 (nth 2 m []) 0))]
               else Err RuntimeError
           | _ => Err RuntimeError
           end
  end.

(** [A @ B] on batches of 3 x 3 matrices; a batch of one is broadcast. *)
Definition bmm (A B : list mat3) : result (list mat3) :=
  if (length A =? length B)%nat
  then Ok (map (fun ab => matmul (fst ab) (snd ab)) (combine A B))
  else match A, B with
       | [a], _ => Ok (map (fun b => matmul a b) B)
       | _, [b] => Ok (map (fun a => matmul a b) A)
       | _, _ => Err RuntimeError
       end.

Definition build_scaling_rotation (s r : tensor) : result (list mat3) :=
  R <- build_rotation r ;;
  L <- diagonals s ;;
  bmm R L.

Definition strip_symmetric (sym : list mat3) : tensor :=
  T2 6 (map (fun A => row_of_sym6 (Kernels.strip_symmetric A)) sym).

Definition build_covariance_from_scaling_rotation
    (scaling : tensor) (scaling_modifier : R) (rotation : tensor)
  : result tensor :=
  L <- build_scaling_rotation
         (map_tensor (Rmult scaling_modifier) scaling) rotation ;;
  let actual_covariance := map (fun l => matmul l (transpose l)) L in
  let symm := strip_symmetric actual_covariance in
  Ok symm.

End Batch.

(** ** The Gaussian model *)

Module GaussianModel.
Import Py Tensor.

(** The activation chosen by [setup_functions], with the attributes that
    its branch sets. *)
Inductive activation : Type :=
| Exp
| Softplus (scale_multi_act : R)
| Sigmoid (scale_min_act scale_max_act : R).

(** [torch.sigmoid], over the reals: its values lie strictly between 0
    and 1, where the rounded values of the code reach 0 and 1. *)
Definition sigmoid (x : R) : R := 1 / (1 + exp (- x)).

(** [torch.nn.functional.softplus] with its defaults, [beta = 1] and
    [threshold = 20]. *)
Definition softplus (x : R) : R :=
  if Rlt_dec 20 x then x else ln (1 + exp x).

Record t := {
  sh_degree : Z;
  _xyz : tensor;
  _features_dc : tensor;
  _features_rest : option tensor;
  _scaling : tensor;
  _rotation : tensor;
  _opacity : tensor;
  scaling_activation_type : activation }.

Definition setup_functions (scaling_activation_type : string)
    (scale_min_act scale_max_act scale_multi_act : R) : result activation :=
  if String.eqb scaling_activation_type "exp" then Ok Exp
  else if String.eqb scaling_activation_type "softplus"
  then Ok (Softplus scale_multi_act)
  else if String.eqb scaling_activation_type "sigmoid"
  then Ok (Sigmoid scale_min_act scale_max_act)
  else Err NotImplementedError.

Definition __init__ (sh_degree : Z) (scaling_activation_type : string)
    (scale_min_act scale_max_act scale_multi_act : R) : result t :=
  act <- setup_functions scaling_activation_type
           scale_min_act scale_max_act scale_multi_act ;;
  Ok {| sh_degree := sh_degree;
        _xyz := empty0;
        _features_dc := empty0;
        _features_rest := if (sh_degree >? 0)%Z then Some empty0 else None;
        _scaling := empty0;
        _rotation := empty0;
        _opacity := empty0;
        scaling_activation_type := act |}.

Definition set_data (self : t) (xyz features scaling rotation opacity : tensor)
  : result t :=
  rest <- (if (sh_degree self >? 0)%Z
           then r <- slice_from1 features ;; Ok (Some r)
           else Ok None) ;;
  Ok {| sh_degree := sh_degree self;
        _xyz := xyz;
        _features_dc := features;
        _features_rest := rest;
        _scaling := scaling;
        _rotation := rotation;
        _opacity := opacity;
        scaling_activation_type := scaling_activation_type self |}.

(** The decoded scale of one raw entry. *)
Definition decode_scale (a : activation) (x : R) : R :=
  match a with
  | Exp => exp x
  | Softplus scale_multi_act => softplus x * scale_multi_act
  | Sigmoid scale_min_act scale_max_act =>
      scale_min_act + (scale_max_act - scale_min_act) * sigmoid x
  end.

Definition get_scaling (self : t) : tensor :=
  map_tensor (decode_scale (scaling_activation_type self)) (_scaling self).

Definition get_xyz (self : t) : tensor := _xyz self.

Definition get_opacity (self : t) : tensor := map_tensor sigmoid (_opacity self).

Definition get_covariance (self : t) (scaling_modifier : R) : result tensor :=
  Batch.build_covariance_from_scaling_rotation
    (get_scaling self) scaling_modifier (_rotation self).

(** *** The scene file *)

(** The vertex element of a PLY file: its properties, in order, with their
    types, and one row of values per primitive. *)
Record PlyElement := {
  properties : list (string * string);
  data : list (list R) }.

Definition names (el : PlyElement) : list string := map fst (properties el).

(** [(f"{prefix}{i}", ty) for i in range(n)] *)
Definition numbered (prefix ty : string) (n : nat) : list (string * string) :=
  map (fun i => ((prefix ++ str i)%string, ty)) (seq 0 n).

Definition rest_tensor (self : t) : result tensor :=
  match _features_rest self with
  | Some r => Ok r
  | None => Err AttributeError
  end.

Definition construct_dtypes (self : t) (use_fp16 enable_gs_viewer : bool)
  : result (list (string * string)) :=
  if negb use_fp16 then
    let l := [("x", "f4"); ("y", "f4"); ("z", "f4");
              ("red", "u1"); ("green", "u1"); ("blue", "u1")]%string in
    dc <- (if (sh_degree self >? 0)%Z
           then a <- shape_at (_features_dc self) 1 ;;
                b <- shape_at (_features_dc self) 2 ;;
                Ok (numbered "f_dc_" "f4" (a * b))
           else a <- shape_at (_features_dc self) 1 ;;
                Ok (numbered "f_dc_" "f4" a)) ;;
    rest <- (if enable_gs_viewer
             then _ <- py_assert (sh_degree self <=? 3)%Z ;;
                  if (sh_degree self >? 0)%Z
                  then let sh_degree := 3%nat in
                       Ok (numbered "f_rest_" "f4" (((sh_degree + 1) ^ 2 - 1) * 3))
                  else Ok []
             else if (sh_degree self >? 0)%Z
                  then r <- rest_tensor self ;;
                       a <- shape_at r 1 ;;
                       b <- shape_at r 2 ;;
                       Ok (numbered "f_rest_" "f4" (a * b))
                  else Ok []) ;;
    sc <- shape_at (_scaling self) 1 ;;
    rt <- shape_at (_rotation self) 1 ;;
    Ok (l ++ dc ++ rest ++ [("opacity", "f4")%string]
          ++ numbered "scale_" "f4" sc ++ numbered "rot_" "f4" rt)
  else
    let l := [("x", "f2"); ("y", "f2"); ("z", "f2");
              ("red", "u1"); ("green", "u1"); ("blue", "u1")]%string in
    a <- shape_at (_features_dc self) 1 ;;
    b <- shape_at (_features_dc self) 2 ;;
    let dc := numbered "f_dc_" "f2" (a * b) in
    rest <- (if (sh_degree self >? 0)%Z
             then r <- rest_tensor self ;;
                  a <- shape_at r 1 ;;
                  b <- shape_at r 2 ;;
                  Ok (numbered "f_rest_" "f2" (a * b))
             else Ok []) ;;
    sc <- shape_at (_scaling self) 1 ;;
    rt <- shape_at (_rotation self) 1 ;;
    Ok (l ++ dc ++ rest ++ [("opacity", "f2")%string]
          ++ numbered "scale_" "f2" sc ++ numbered "rot_" "f2" rt).

(** [x.clip(lo, hi)] *)
Definition clip (x lo hi : R) : R := Rmin (Rmax x lo) hi.

(** [.astype(np.uint8)] on a value between 0 and 255 *)
Definition to_uint8 (x : R) : R := IZR (Zfloor x).

(** [(SH2RGB(f_dc) * 255.0).clip(0.0, 255.0).astype(np.uint8)] on one
    entry *)
Definition rgb_of (x : R) : R :=
  to_uint8 (clip (Kernels.SH2RGB x * 255.0) 0.0 255.0).

(** The log-scale written to the file: the raw scale itself under [exp],
    [torch.log] of the decoded scale otherwise.  [torch.log] gives [-inf]
    or [nan] on a decoded scale that is not positive, which the real [ln]
    does not show: the definition describes the file for positive decoded
    scales only, and the theorems on it assume them. *)
Definition encode_scale (a : activation) (x : R) : R :=
  match a with
  | Exp => x
  | Softplus scale_multi_act => ln (softplus x * scale_multi_act)
  | Sigmoid scale_min_act scale_max_act =>
      ln (scale_min_act + (scale_max_act - scale_min_act) * sigmoid x)
  end.

(** [f_rest_pad = np.zeros((n, width)); f_rest_pad[:, :w] = f_rest]: a
    single row of [f_rest] is broadcast to the [n] rows. *)
Definition pad_rest (n width w : nat) (f_rest : list (list R))
  : result (list (list R)) :=
  let pad := fun r => r ++ repeat 0 (width - w) in
  if (length f_rest =? n)%nat then Ok (map pad f_rest)
  else match f_rest with
       | [r] => Ok (repeat (pad r) n)
       | _ => Err ValueError
       end.

(** [elements[:] = list(map(tuple, attributes))]: every row must have one
    value per field. *)
Definition assign_rows (dtype : list (string * string)) (attributes : tensor)
  : result PlyElement :=
  match attributes with
  | T2 c rows =>
      if (length rows =? 0)%nat || (c =? length dtype)%nat
      then Ok {| properties := dtype; data := rows |}
      else Err ValueError
  | _ => Err ValueError
  end.

(** [self._features_rest.detach().transpose(1, 2).flatten(start_dim=1)]
    when the degree is positive, [None] otherwise. *)
Definition flattened_rest (self : t) : result (option tensor) :=
  if (sh_degree self >? 0)%Z
  then r <- rest_tensor self ;;
       tr <- transpose12 r ;;
       fl <- flatten1 tr ;;
       Ok (Some fl)
  else Ok None.

(** The scalar types of plyfile. *)
Definition plyfile_types : list string :=
  ["i1"; "u1"; "b1"; "i2"; "u2"; "i4"; "u4"; "f4"; "f8"]%string.

(** [PlyElement.describe(elements, "vertex")]: plyfile looks the type of
    every field up among its scalar types and raises [ValueError] for any
    other one, as it does for the [f2] of the half precision variant. *)
Definition describe (el : PlyElement) : result PlyElement :=
  if forallb (fun p => existsb (String.eqb (snd p)) plyfile_types)
       (properties el)
  then Ok el
  else Err ValueError.

(** [save_ply] with [color_code] left at its default [False].  The result
    is the vertex element that is written to [path]; its values are the
    real numbers assigned to the fields, the rounding of an [f4] or [f2]
    field is not part of the model. *)
Definition save_ply (self : t) (use_fp16 enable_gs_viewer : bool)
  : result PlyElement :=
  let xyz := _xyz self in
  f_dc <- (if (sh_degree self >? 0)%Z
           then tr <- transpose12 (_features_dc self) ;; flatten1 tr
           else Ok (_features_dc self)) ;;
  let rgb := map_tensor rgb_of f_dc in
  let opacities := _opacity self in
  let scale := map_tensor (encode_scale (scaling_activation_type self))
                 (_scaling self) in
  let rotation := _rotation self in
  dtype_full <- construct_dtypes self use_fp16 enable_gs_viewer ;;
  f_rest <- flattened_rest self ;;
  f_rest <- (if enable_gs_viewer && (sh_degree self >? 0)%Z
             then let sh_degree := 3%nat in
                  let width := (3 * ((sh_degree + 1) ^ 2 - 1))%nat in
                  match f_rest with
                  | None => Ok (Some (T2 width (repeat (repeat 0 width) (size0 xyz))))
                  | Some (T2 w rows) =>
                      if (w <? width)%nat
                      then padded <- pad_rest (size0 xyz) width w rows ;;
                           Ok (Some (T2 width padded))
                      else Ok (Some (T2 w rows))
                  | Some other => Ok (Some other)
                  end
             else Ok f_rest) ;;
  attributes <- (match f_rest with
                 | Some f_rest =>
                     concatenate_axis1
                       [xyz; rgb; f_dc; f_rest; opacities; scale; rotation]
                 | None =>
                     concatenate_axis1
                       [xyz; rgb; f_dc; opacities; scale; rotation]
                 end) ;;
  elements <- assign_rows dtype_full attributes ;;
  describe elements.

(** [el[name]]: the column of a property. *)
Definition field (el : PlyElement) (name : string) : result (list R) :=
  match index_of name (names el) with
  | Some i => Ok (map (fun row => nth i row 0) (data el))
  | None => Err ValueError
  end.

(** The names of the properties that start with [prefix], sorted by their
    numeric suffix. *)
Definition sorted_names (el : PlyElement) (prefix : string)
  : result (list string) :=
  sorted_by_suffix (filter (fun name => startswith name prefix) (names el)).

(** The [n x len(names)] array whose column [idx] is [el[names[idx]]]. *)
Definition read_columns (el : PlyElement) (n : nat) (names : list string)
  : result tensor :=
  cols <- mapM (field el) names ;;
  Ok (T2 (length names) (stack_axis1 n cols)).

(** [load_ply] on the vertex element read from [path]. *)
Definition load_ply (self : t) (el : PlyElement) : result t :=
  x <- field el "x" ;;
  y <- field el "y" ;;
  z <- field el "z" ;;
  let n := length x in
  let xyz := T2 3 (stack_axis1 n [x; y; z]) in
  op <- field el "opacity" ;;
  let opacities := T2 1 (map (fun v => [v]) op) in
  f_dc_0 <- field el "f_dc_0" ;;
  f_dc_1 <- field el "f_dc_1" ;;
  f_dc_2 <- field el "f_dc_2" ;;
  let features_dc :=
    T3 3 1 (map (fun i => [[nth i f_dc_0 0]; [nth i f_dc_1 0]; [nth i f_dc_2 0]])
              (seq 0 n)) in
  features_extra <-
    (if (sh_degree self >? 0)%Z
     then extra_f_names <- sorted_names el "f_rest_" ;;
          _ <- py_assert (Z.of_nat (length extra_f_names)
                          =? 3 * (sh_degree self + 1) ^ 2 - 3)%Z ;;
          extra <- read_columns el n extra_f_names ;;
          match extra with
          | T2 _ rows =>
              let k := Z.to_nat ((sh_degree self + 1) ^ 2 - 1) in
              Ok (Some (T3 3 k (map (chunks 3 k) rows)))
          | _ => Err ValueError
          end
     else Ok None) ;;
  scale_names <- sorted_names el "scale_" ;;
  scales <- read_columns el n scale_names ;;
  rot_names <- sorted_names el "rot" ;;
  rots <- read_columns el n rot_names ;;
  dc <- transpose12 features_dc ;;
  rest <- (match features_extra with
           | Some e => r <- transpose12 e ;; Ok (Some r)
           | None => Ok (_features_rest self)
           end) ;;
  Ok {| sh_degree := sh_degree self;
        _xyz := xyz;
        _features_dc := dc;
        _features_rest := rest;
        _opacity := opacities;
        _scaling := scales;
        _rotation := rots;
        scaling_activation_type := scaling_activation_type self |}.

(** *** Normalised rotations *)

(** The Euclidean norm of a list of values. *)
Definition l2 (v : list R) : R :=
  sqrt (fold_right (fun x acc => x * x + acc) 0 v).

(** [torch.nn.functional.normalize(x)] with its defaults [p = 2],
    [dim = 1] and [eps = 1e-12]: every entry is divided by the norm, taken
    along dimension 1 and not less than [eps]. *)
Definition normalize (x : tensor) : result tensor :=
  match x with
  | T1 _ => Err IndexError
  | T2 c rows =>
      Ok (T2 c (map (fun row => map (fun v => v / Rmax (l2 row) 1e-12) row)
                  rows))
  | T3 a b slabs =>
      Ok (T3 a b
            (map (fun s =>
                    map (fun row =>
                           map (fun kv =>
                                  snd kv
                                  / Rmax (l2 (map (fun r => nth (fst kv) r 0) s))
                                      1e-12)
                             (combine (seq 0 (length row)) row))
                      s)
               slabs))
  end.

Definition get_rotation (self : t) : result tensor :=
  normalize (_rotation self).

End GaussianModel.

(** ** Concrete models and files *)

Module Examples.
Import Py Tensor GaussianModel.

(** One primitive with four coefficients per channel. *)
Definition features_1x4x3 : tensor :=
  T3 4 3 [[[1; 2; 3]; [4; 5; 6]; [7; 8; 9]; [10; 11; 12]]].

Definition degree1_empty : t :=
  {| sh_degree := 1; _xyz := empty0; _features_dc := empty0;
     _features_rest := Some empty0;
     _scaling := empty0; _rotation := empty0; _opacity := empty0;
     scaling_activation_type := Exp |}.

(** The properties of a standard, full precision file of a degree-0 model
    with three colour channels. *)
Definition standard_dtype0 : list (string * string) :=
  [("x", "f4"); ("y", "f4"); ("z", "f4");
   ("red", "u1"); ("green", "u1"); ("blue", "u1");
   ("f_dc_0", "f4"); ("f_dc_1", "f4"); ("f_dc_2", "f4");
   ("opacity", "f4");
   ("scale_0", "f4"); ("scale_1", "f4"); ("scale_2", "f4");
   ("rot_0", "f4"); ("rot_1", "f4"); ("rot_2", "f4"); ("rot_3", "f4")]%string.

(** One primitive at the origin with raw scale 0, for an activation. *)
Definition unit_model (a : activation) : t :=
  {| sh_degree := 0;
     _xyz := T2 3 [[0; 0; 0]];
     _features_dc := T2 3 [[0; 0; 0]];
     _features_rest := None;
     _scaling := T2 3 [[0; 0; 0]];
     _rotation := T2 4 [[1; 0; 0; 0]];
     _opacity := T2 1 [[0]];
     scaling_activation_type := a |}.

(** The model that [__init__ 0] builds for an activation. *)
Definition fresh0 (a : activation) : t :=
  {| sh_degree := 0;
     _xyz := empty0;
     _features_dc := empty0;
     _features_rest := None;
     _scaling := empty0;
     _rotation := empty0;
     _opacity := empty0;
     scaling_activation_type := a |}.

(** The properties of a viewer file, full precision, of a model of
    positive degree with three colour channels. *)
Definition viewer_dtype : list (string * string) :=
  [("x", "f4"); ("y", "f4"); ("z", "f4");
   ("red", "u1"); ("green", "u1"); ("blue", "u1");
   ("f_dc_0", "f4"); ("f_dc_1", "f4"); ("f_dc_2", "f4")]%string
  ++ numbered "f_rest_" "f4" 45
  ++ [("opacity", "f4");
      ("scale_0", "f4"); ("scale_1", "f4"); ("scale_2", "f4");
      ("rot_0", "f4"); ("rot_1", "f4"); ("rot_2", "f4"); ("rot_3", "f4")]%string.

(** The values of the properties of a file whose name starts with
    [f_rest_], in the order of the file, one row per primitive. *)
Definition rest_block (el : PlyElement) : result tensor :=
  read_columns el (length (data el))
    (filter (fun name => startswith name "f_rest_") (names el)).

(** The rest block of [el] is, row by row, the [real] flattened rest
    coefficients of the model followed by [zero] zeros. *)
Definition padded_as (real zero : nat) (self : t) (el : PlyElement) : Prop :=
  exists rows,
    flattened_rest self = Ok (Some (T2 real rows))
    /\ rest_block el
       = Ok (T2 (real + zero) (map (fun r => r ++ repeat 0 zero) rows)).

(** One primitive of degree 1 whose nine rest coefficients are 1. *)
Definition degree1_ones : t :=
  {| sh_degree := 1;
     _xyz := T2 3 [[0; 0; 0]];
     _features_dc := T3 1 3 [[[0; 0; 0]]];
     _features_rest := Some (T3 3 3 [[[1; 1; 1]; [1; 1; 1]; [1; 1; 1]]]);
     _scaling := T2 3 [[0; 0; 0]];
     _rotation := T2 4 [[1; 0; 0; 0]];
     _opacity := T2 1 [[0]];
     scaling_activation_type := Exp |}.

(** [unit_model Exp] with its rotation row multiplied by 2. *)
Definition unit_model_doubled : t :=
  {| sh_degree := 0;
     _xyz := T2 3 [[0; 0; 0]];
     _features_dc := T2 3 [[0; 0; 0]];
     _features_rest := None;
     _scaling := T2 3 [[0; 0; 0]];
     _rotation := T2 4 [map (Rmult 2) [1; 0; 0; 0]];
     _opacity := T2 1 [[0]];
     scaling_activation_type := Exp |}.

(** A file of one primitive with the nine rest properties of degree 1,
    not in numeric order. *)
Definition rest9_file : PlyElement :=
  {| properties :=
       [("x", "f4"); ("y", "f4"); ("z", "f4");
        ("f_dc_0", "f4"); ("f_dc_1", "f4"); ("f_dc_2", "f4");
        ("f_rest_8", "f4"); ("f_rest_7", "f4"); ("f_rest_6", "f4");
        ("f_rest_5", "f4"); ("f_rest_4", "f4"); ("f_rest_3", "f4");
        ("f_rest_2", "f4"); ("f_rest_1", "f4"); ("f_rest_0", "f4");
        ("opacity", "f4");
        ("scale_0", "f4"); ("scale_1", "f4"); ("scale_2", "f4");
        ("rot_0", "f4"); ("rot_1", "f4"); ("rot_2", "f4");
        ("rot_3", "f4")]%string;
     data := [[0; 0; 0; 0; 0; 0; 8; 7; 6; 5; 4; 3; 2; 1; 0;
               0; 0; 0; 0; 1; 0; 0; 0]] |}.

(** A file of one primitive whose only rest property has no numeric
    suffix. *)
Definition malformed_file : PlyElement :=
  {| properties :=
       [("x", "f4"); ("y", "f4"); ("z", "f4");
        ("f_dc_0", "f4"); ("f_dc_1", "f4"); ("f_dc_2", "f4");
        ("f_rest_x", "f4");
        ("opacity", "f4")]%string;
     data := [[0; 0; 0; 0; 0; 0; 0; 0]] |}.

(** The properties of a standard, full precision file of a model of
    positive degree with [k] rest coefficients per colour channel. *)
Definition standard_dtype (k : nat) : list (string * string) :=
  [("x", "f4"); ("y", "f4"); ("z", "f4");
   ("red", "u1"); ("green", "u1"); ("blue", "u1");
   ("f_dc_0", "f4"); ("f_dc_1", "f4"); ("f_dc_2", "f4")]%string
  ++ numbered "f_rest_" "f4" (k * 3)
  ++ [("opacity", "f4");
      ("scale_0", "f4"); ("scale_1", "f4"); ("scale_2", "f4");
      ("rot_0", "f4"); ("rot_1", "f4"); ("rot_2", "f4"); ("rot_3", "f4")]%string.

End Examples.

(** ** Spherical harmonics *)

Module SphericalHarmonics.
Import Py Kernels.

Definition C1 : R := 0.4886025119029199.

Definition C2 : list R :=
  [1.0925484305920792;
   -1.0925484305920792;
   0.31539156525252005;
   -1.0925484305920792;
   0.5462742152960396].

Definition C3 : list R :=
  [-0.5900435899266435;
   2.890611442640554;
   -0.4570457994644658;
   0.3731763325901154;
   -0.4570457994644658;
   1.445305721320277;
   -0.5900435899266435].

Definition C4 : list R :=
  [2.5033429417967046;
   -1.7701307697799304;
   0.9461746957575601;
   -0.6690465435572892;
   0.10578554691520431;
   -0.6690465435572892;
   0.47308734787878004;
   -1.7701307697799304;
   0.6258357354491761].

(** [eval_sh] for one channel of one primitive: [sh] is the coefficient
    vector [sh[..., c, :]] and [dirs] the direction [dirs[..., :]]. *)
Definition eval_sh (deg : Z) (sh : list R) (dirs : vec3) : result R :=
  _ <- py_assert ((deg <=? 4)%Z && (deg >=? 0)%Z) ;;
  let coeff := ((deg + 1) ^ 2)%Z in
  _ <- py_assert (Z.of_nat (length sh) >=? coeff)%Z ;;
  let sh := fun i => nth i sh 0 in
  let C2 := fun i => nth i C2 0 in
  let C3 := fun i => nth i C3 0 in
  let C4 := fun i => nth i C4 0 in
  let result := C0 * sh 0%nat in
  if (deg >? 0)%Z then
    let x := v0 dirs in
    let y := v1 dirs in
    let z := v2 dirs in
    let result :=
      result - C1 * y * sh 1%nat + C1 * z * sh 2%nat - C1 * x * sh 3%nat in
    if (deg >? 1)%Z then
      let xx := x * x in
      let yy := y * y in
      let zz := z * z in
      let xy := x * y in
      let yz := y * z in
      let xz := x * z in
      let result :=
        result
        + C2 0%nat * xy * sh 4%nat
        + C2 1%nat * yz * sh 5%nat
        + C2 2%nat * (2.0 * zz - xx - yy) * sh 6%nat
        + C2 3%nat * xz * sh 7%nat
        + C2 4%nat * (xx - yy) * sh 8%nat in
      if (deg >? 2)%Z then
        let result :=
          result
          + C3 0%nat * y * (3 * xx - yy) * sh 9%nat
          + C3 1%nat * xy * z * sh 10%nat
          + C3 2%nat * y * (4 * zz - xx - yy) * sh 11%nat
          + C3 3%nat * z * (2 * zz - 3 * xx - 3 * yy) * sh 12%nat
          + C3 4%nat * x * (4 * zz - xx - yy) * sh 13%nat
          + C3 5%nat * z * (xx - yy) * sh 14%nat
          + C3 6%nat * x * (xx - 3 * yy) * sh 15%nat in
        if (deg >? 3)%Z then
          Ok (result
              + C4 0%nat * xy * (xx - yy) * sh 16%nat
              + C4 1%nat * yz * (3 * xx - yy) * sh 17%nat
              + C4 2%nat * xy * (7 * zz - 1) * sh 18%nat
              + C4 3%nat * yz * (7 * zz - 3) * sh 19%nat
              + C4 4%nat * (zz * (35 * zz - 30) + 3) * sh 20%nat
              + C4 5%nat * xz * (7 * zz - 3) * sh 21%nat
              + C4 6%nat * (xx - yy) * (7 * zz - 1) * sh 22%nat
              + C4 7%nat * xz * (xx - 3 * yy) * sh 23%nat
              + C4 8%nat
                * (xx * (xx - 3 * yy) - yy * (3 * xx - yy))
                * sh 24%nat)
        else Ok result
      else Ok result
    else Ok result
  else Ok result.

End SphericalHarmonics.

(** * Properties *)

(** ** Math kernels *)

Section KernelFacts.
Import Kernels.

Lemma norm_sqr (r : quat) :
  norm r * norm r = q0 r * q0 r + q1 r * q1 r + q2 r * q2 r + q3 r * q3 r.
Proof.
  unfold norm. apply sqrt_sqrt.
  pose proof (Rle_0_sqr (q0 r)). pose proof (Rle_0_sqr (q1 r)).
  pose proof (Rle_0_sqr (q2 r)). pose proof (Rle_0_sqr (q3 r)).
  unfold Rsqr in *. lra.
Qed.

Lemma norm_unit (r : quat) :
  q0 r * q0 r + q1 r * q1 r + q2 r * q2 r + q3 r * q3 r = 1 -> norm r = 1.
Proof. intros H. unfold norm. rewrite H. apply sqrt_1. Qed.

Lemma qdiv_1 (r : quat) : qdiv r 1 = r.
Proof. destruct r; unfold qdiv; simpl. f_equal; field. Qed.

Lemma norm_qscale (c : R) (r : quat) : norm (qscale c r) = Rabs c * norm r.
Proof.
  unfold norm, qscale; simpl.
  replace (c * q0 r * (c * q0 r) + c * q1 r * (c * q1 r)
           + c * q2 r * (c * q2 r) + c * q3 r * (c * q3 r))
    with (Rsqr c * (q0 r * q0 r + q1 r * q1 r + q2 r * q2 r + q3 r * q3 r))
    by (unfold Rsqr; ring).
  rewrite sqrt_mult_alt by apply Rle_0_sqr.
  now rewrite sqrt_Rsqr_abs.
Qed.

Lemma build_rotation_products (r : quat) :
  norm r <> 0 -> build_rotation r = rotation_of_products r.
Proof.
  intros Hn. pose proof (norm_sqr r) as Hs.
  assert (Hs0 : q0 r * q0 r + q1 r * q1 r + q2 r * q2 r + q3 r * q3 r <> 0).
  { rewrite <- Hs. now apply Rmult_integral_contrapositive_currified. }
  unfold build_rotation, rotation_of_products, qdiv; cbn [q0 q1 q2 q3].
  rewrite <- Hs.
  f_equal; field; exact Hn.
Qed.

Lemma build_rotation_unit (r : quat) :
  norm r = 1 ->
  build_rotation r =
  Mat3 (1 - 2 * (q2 r * q2 r + q3 r * q3 r))
       (2 * (q1 r * q2 r - q0 r * q3 r))
       (2 * (q1 r * q3 r + q0 r * q2 r))
       (2 * (q1 r * q2 r + q0 r * q3 r))
       (1 - 2 * (q1 r * q1 r + q3 r * q3 r))
       (2 * (q2 r * q3 r - q0 r * q1 r))
       (2 * (q1 r * q3 r - q0 r * q2 r))
       (2 * (q2 r * q3 r + q0 r * q1 r))
       (1 - 2 * (q1 r * q1 r + q2 r * q2 r)).
Proof.
  intros Hn. unfold build_rotation. rewrite Hn, qdiv_1. reflexivity.
Qed.

Lemma build_rotation_qscale (c : R) (r : quat) :
  c <> 0 -> norm r <> 0 -> build_rotation (qscale c r) = build_rotation r.
Proof.
  intros Hc Hn.
  assert (Hcn : norm (qscale c r) <> 0).
  { rewrite norm_qscale. apply Rmult_integral_contrapositive_currified; auto.
    now apply Rabs_no_R0. }
  rewrite (build_rotation_products _ Hcn), (build_rotation_products _ Hn).
  pose proof (norm_sqr r) as Hs.
  assert (Hs0 : q0 r * q0 r + q1 r * q1 r + q2 r * q2 r + q3 r * q3 r <> 0).
  { rewrite <- Hs. now apply Rmult_integral_contrapositive_currified. }
  unfold rotation_of_products, qscale; cbn [q0 q1 q2 q3].
  f_equal; field; split; auto;
    replace (c * q0 r * (c * q0 r) + c * q1 r * (c * q1 r)
             + c * q2 r * (c * q2 r) + c * q3 r * (c * q3 r))
      with (c * c * (q0 r * q0 r + q1 r * q1 r + q2 r * q2 r + q3 r * q3 r))
      by ring;
    repeat apply Rmult_integral_contrapositive_currified; auto.
Qed.

(** C5: for a unit quaternion [q], [build_rotation q] is orthonormal and
    has determinant 1, and [build_rotation] gives the same matrix for [q]
    and for [-q]. *)
Theorem build_rotation_unit_orthonormal_det_flip (q : quat) :
  norm q = 1 ->
  orthonormal (build_rotation q)
  /\ det (build_rotation q) = 1
  /\ build_rotation (qneg q) = build_rotation q.
Proof.
  intros Hn.
  assert (Hu : q0 q * q0 q + q1 q * q1 q + q2 q * q2 q + q3 q * q3 q = 1).
  { rewrite <- norm_sqr, Hn. ring. }
  split; [|split].
  - rewrite (build_rotation_unit _ Hn).
    destruct q as [a b c d]; cbn [q0 q1 q2 q3] in *.
    split; unfold matmul, transpose, identity3;
      cbn [m00 m01 m02 m10 m11 m12 m20 m21 m22]; f_equal; nsatz.
  - rewrite (build_rotation_unit _ Hn).
    destruct q as [a b c d]; cbn [q0 q1 q2 q3] in *.
    unfold det; cbn [m00 m01 m02 m10 m11 m12 m20 m21 m22]. nsatz.
  - apply build_rotation_qscale; [lra | rewrite Hn; lra].
Qed.

Lemma quadratic_form_gram (L : mat3) (v : vec3) :
  quadratic_form (matmul L (transpose L)) v =
  Rsqr (m00 L * v0 v + m10 L * v1 v + m20 L * v2 v)
  + Rsqr (m01 L * v0 v + m11 L * v1 v + m21 L * v2 v)
  + Rsqr (m02 L * v0 v + m12 L * v1 v + m22 L * v2 v).
Proof.
  unfold quadratic_form, matmul, transpose, Rsqr;
    cbn [m00 m01 m02 m10 m11 m12 m20 m21 m22]. ring.
Qed.

Lemma gram_symmetric (L : mat3) :
  unpack (strip_symmetric (matmul L (transpose L))) = matmul L (transpose L).
Proof.
  unfold unpack, strip_symmetric, strip_lowerdiag, matmul, transpose;
    cbn [m00 m01 m02 m10 m11 m12 m20 m21 m22 xx xy xz yy yz zz].
  f_equal; ring.
Qed.

(** C4: for a scale vector, a modifier and a quaternion of nonzero norm,
    the covariance kernel returns the entries xx, xy, xz, yy, yz, zz of
    [L L^T], where [L = build_rotation q * diag (modifier * scale)] has the
    entry [A_ij * (modifier * scale_j)] in row [i] and column [j] for
    [A = build_rotation q]; the symmetric matrix described by these six
    entries is positive semi-definite: its quadratic form is nowhere
    negative. *)
Theorem covariance_packed_gram_psd (scale : vec3) (modifier : R) (q : quat) :
  norm q <> 0 ->
  let A := build_rotation q in
  let d0 := modifier * v0 scale in
  let d1 := modifier * v1 scale in
  let d2 := modifier * v2 scale in
  let L := Mat3 (m00 A * d0) (m01 A * d1) (m02 A * d2)
                (m10 A * d0) (m11 A * d1) (m12 A * d2)
                (m20 A * d0) (m21 A * d1) (m22 A * d2) in
  let c := build_covariance_from_scaling_rotation scale modifier q in
  xx c = m00 L * m00 L + m01 L * m01 L + m02 L * m02 L
  /\ xy c = m00 L * m10 L + m01 L * m11 L + m02 L * m12 L
  /\ xz c = m00 L * m20 L + m01 L * m21 L + m02 L * m22 L
  /\ yy c = m10 L * m10 L + m11 L * m11 L + m12 L * m12 L
  /\ yz c = m10 L * m20 L + m11 L * m21 L + m12 L * m22 L
  /\ zz c = m20 L * m20 L + m21 L * m21 L + m22 L * m22 L
  /\ (forall x y z : R,
        0 <= xx c * x * x + yy c * y * y + zz c * z * z
             + 2 * xy c * x * y + 2 * xz c * x * z + 2 * yz c * y * z)
  /\ positive_semidefinite (unpack c).
Proof.
  intros _ A d0 d1 d2 L c.
  assert (E : c = Sym6
                    (m00 L * m00 L + m01 L * m01 L + m02 L * m02 L)
                    (m00 L * m10 L + m01 L * m11 L + m02 L * m12 L)
                    (m00 L * m20 L + m01 L * m21 L + m02 L * m22 L)
                    (m10 L * m10 L + m11 L * m11 L + m12 L * m12 L)
                    (m10 L * m20 L + m11 L * m21 L + m12 L * m22 L)
                    (m20 L * m20 L + m21 L * m21 L + m22 L * m22 L)).
  { unfold c, L, d0, d1, d2, A, build_covariance_from_scaling_rotation,
      build_scaling_rotation.
    generalize (build_rotation q) as B.
    intros [a00 a01 a02 a10 a11 a12 a20 a21 a22].
    destruct scale as [s0 s1 s2].
    cbv [strip_symmetric strip_lowerdiag matmul transpose diag vscale
         m00 m01 m02 m10 m11 m12 m20 m21 m22 v0 v1 v2].
    f_equal; ring. }
  repeat split; try (rewrite E; reflexivity).
  - intros x y z. rewrite E. cbn [xx xy xz yy yz zz].
    replace (_ + _ + _ + _ + _ + _)
      with (Rsqr (m00 L * x + m10 L * y + m20 L * z)
            + Rsqr (m01 L * x + m11 L * y + m21 L * z)
            + Rsqr (m02 L * x + m12 L * y + m22 L * z))
      by (unfold Rsqr; ring).
    repeat apply Rplus_le_le_0_compat; apply Rle_0_sqr.
  - intros v. unfold c, build_covariance_from_scaling_rotation.
    cbv zeta. rewrite gram_symmetric, quadratic_form_gram.
    repeat apply Rplus_le_le_0_compat; apply Rle_0_sqr.
Qed.

Lemma norm_identity_quat : norm (Quat 1 0 0 0) = 1.
Proof. apply norm_unit; cbn [q0 q1 q2 q3]; ring. Qed.

Lemma covariance_packed_gram_psd_witness :
  norm (Quat 0 0 2 0) <> 0
  /\ yy (build_covariance_from_scaling_rotation (Vec3 1 2 3) 2 (Quat 0 0 2 0))
     = 16.
Proof.
  assert (H : norm (Quat 0 0 2 0) <> 0).
  { intros E. pose proof (norm_sqr (Quat 0 0 2 0)) as Hs.
    rewrite E in Hs. cbn [q0 q1 q2 q3] in Hs. lra. }
  split; [exact H |].
  pose proof (covariance_packed_gram_psd (Vec3 1 2 3) 2 (Quat 0 0 2 0) H)
    as T.
  cbv zeta in T. destruct T as (_ & _ & _ & Hyy & _).
  rewrite Hyy, (build_rotation_products _ H).
  unfold rotation_of_products.
  cbn [q0 q1 q2 q3 m00 m01 m02 m10 m11 m12 m20 m21 m22 v0 v1 v2].
  field.
Defined.

Lemma build_rotation_unit_witness :
  norm (Quat 1 0 0 0) = 1 /\ det (build_rotation (Quat 1 0 0 0)) = 1.
Proof.
  split; [exact norm_identity_quat |].
  exact (proj1 (proj2 (build_rotation_unit_orthonormal_det_flip
                         (Quat 1 0 0 0) norm_identity_quat))).
Defined.

Lemma C0_nonzero : C0 <> 0.
Proof. unfold C0. lra. Qed.

(** C6: [RGB2SH] and [SH2RGB] are inverse to each other on every real,
    where [RGB2SH rgb = (rgb - 0.5) / C0], [SH2RGB sh = sh * C0 + 0.5] and
    [C0 = 0.28209479177387814]. *)
Theorem RGB2SH_SH2RGB_inverse (x : R) :
  RGB2SH (SH2RGB x) = x
  /\ SH2RGB (RGB2SH x) = x
  /\ RGB2SH x = (x - 0.5) / 0.28209479177387814
  /\ SH2RGB x = x * 0.28209479177387814 + 0.5.
Proof.
  pose proof C0_nonzero as H.
  unfold RGB2SH, SH2RGB.
  split; [field; exact H | split; [field; exact H | split; reflexivity]].
Qed.

End KernelFacts.

(** ** Camera *)

Section CameraFacts.
Import Camera.

(** C7: for nonzero [fx] and [fy] the camera stores
    [tanfovX = 1 / (2 fx)], [tanfovY = 1 / (2 fy)], [shiftX = 2 cx - 1] and
    [shiftY = 2 cy - 1]; with [fx = fy = 0.5] and [cx = cy = 0.5] the
    shifts are 0 and the tangents are 1. *)
Theorem camera_intrinsics (fx fy cx cy : R) (h w : Z) :
  fx <> 0 -> fy <> 0 ->
  let cam := __init__ fx fy cx cy h w in
  tanfovX cam = 1 / (2 * fx)
  /\ tanfovY cam = 1 / (2 * fy)
  /\ shiftX cam = 2 * cx - 1
  /\ shiftY cam = 2 * cy - 1
  /\ (fx = 0.5 -> fy = 0.5 -> cx = 0.5 -> cy = 0.5 ->
      shiftX cam = 0 /\ shiftY cam = 0 /\ tanfovX cam = 1 /\ tanfovY cam = 1).
Proof.
  intros Hfx Hfy cam. unfold cam, __init__; cbn.
  repeat split; try reflexivity; subst; try lra; field.
Qed.

Lemma camera_intrinsics_witness :
  let cam := __init__ 0.5 0.5 0.5 0.5 480 640 in
  0.5 <> 0
  /\ shiftX cam = 0 /\ shiftY cam = 0 /\ tanfovX cam = 1 /\ tanfovY cam = 1.
Proof.
  intros cam.
  assert (H : 0.5 <> 0) by lra.
  split; [exact H |].
  pose proof (camera_intrinsics 0.5 0.5 0.5 0.5 480 640 H H) as T.
  cbv zeta in T.
  destruct T as (_ & _ & _ & _ & T).
  exact (T eq_refl eq_refl eq_refl eq_refl).
Defined.

End CameraFacts.

(** ** Model construction and bulk replacement *)

Section ModelFacts.
Import Py Tensor GaussianModel Examples.




(** For a model of positive degree, [set_data] keeps the whole [features]
    tensor as the DC field. *)
Lemma set_data_positive_degree (self : t)
    (xyz features scaling rotation opacity : tensor) (m : t) :
  (0 < sh_degree self)%Z ->
  set_data self xyz features scaling rotation opacity = Ok m ->
  _features_dc m = features
  /\ Ok (_features_rest m) = (r <- slice_from1 features ;; Ok (Some r))
  /\ _xyz m = xyz /\ _scaling m = scaling
  /\ _rotation m = rotation /\ _opacity m = opacity.
Proof.
  intros Hd. unfold set_data.
  replace (sh_degree self >? 0)%Z with true by (symmetry; apply Z.gtb_lt; lia).
  destruct (slice_from1 features) as [r | e]; cbn [bind]; [| discriminate].
  intros H. injection H as <-. cbn. repeat split.
Qed.

(** C2 on a degree-1 model and one primitive: [set_data] stores the whole
    [features] tensor, with its four coefficients, as the DC field and not
    the slice [features[:, 0, :]]; the rest field is [features[:, 1:, :]]
    and the other fields are the arguments. *)
Theorem set_data_dc_is_whole_features :
  __init__ 1 "exp" 0.001 0.3 0.1 = Ok degree1_empty
  /\ select0 features_1x4x3 = Ok (T2 3 [[1; 2; 3]])
  /\ exists m,
       set_data degree1_empty (T2 3 [[0; 0; 0]]) features_1x4x3
         (T2 3 [[0; 0; 0]]) (T2 4 [[1; 0; 0; 0]]) (T2 1 [[0]]) = Ok m
       /\ _features_dc m = features_1x4x3
       /\ _features_dc m <> T2 3 [[1; 2; 3]]
       /\ shape (_features_dc m) = [1; 4; 3]%nat
       /\ _features_rest m = Some (T3 3 3 [[[4; 5; 6]; [7; 8; 9]; [10; 11; 12]]])
       /\ _xyz m = T2 3 [[0; 0; 0]]
       /\ _scaling m = T2 3 [[0; 0; 0]]
       /\ _rotation m = T2 4 [[1; 0; 0; 0]]
       /\ _opacity m = T2 1 [[0]].
Proof.
  split; [reflexivity | split; [reflexivity |]].
  eexists; split; [reflexivity |].
  cbn. repeat split; try reflexivity. discriminate.
Qed.

End ModelFacts.

(** ** Covariance and the direction of the raw rotation *)

Section CovarianceFacts.
Import Py Tensor Kernels GaussianModel.

Lemma nth_map_Rmult (c : R) (r : list R) (i : nat) :
  nth i (map (Rmult c) r) 0 = c * nth i r 0.
Proof.
  replace 0 with (c * 0) at 1 by ring. apply map_nth.
Qed.

Lemma quat_of_row_rescale (c : R) (r : list R) :
  Batch.quat_of_row (map (Rmult c) r) = qscale c (Batch.quat_of_row r).
Proof.
  unfold Batch.quat_of_row, qscale; cbn [q0 q1 q2 q3].
  now rewrite !nth_map_Rmult.
Qed.

Lemma batch_build_rotation_rescaled (cols : nat) (rows rows' : list (list R)) :
  Forall2 (fun r r' => norm (Batch.quat_of_row r) <> 0 /\ Batch.rescaled r r')
    rows rows' ->
  Batch.build_rotation (T2 cols rows') = Batch.build_rotation (T2 cols rows).
Proof.
  intros H. unfold Batch.build_rotation.
  destruct (cols <? 4)%nat; [reflexivity |]. f_equal.
  induction H as [| r r' l l' [Hn (c & Hc & ->)] _ IH]; [reflexivity |].
  cbn [map]. rewrite IH, quat_of_row_rescale.
  now rewrite build_rotation_qscale.
Qed.

(** C10: multiplying a quaternion of nonzero norm by a nonzero scalar
    changes neither [build_rotation] nor the covariance kernel, and
    [get_covariance] of a model is unchanged when every raw rotation row
    is multiplied by a nonzero scalar of its own. *)
Theorem covariance_depends_on_rotation_direction :
  (forall (c : R) (q : quat) (scale : vec3) (modifier : R),
      c <> 0 -> norm q <> 0 ->
      build_rotation (qscale c q) = build_rotation q
      /\ build_covariance_from_scaling_rotation scale modifier (qscale c q)
         = build_covariance_from_scaling_rotation scale modifier q)
  /\ (forall (self self' : t) (cols : nat) (rows rows' : list (list R))
             (modifier : R),
         _scaling self' = _scaling self ->
         scaling_activation_type self' = scaling_activation_type self ->
         _rotation self = T2 cols rows ->
         _rotation self' = T2 cols rows' ->
         Forall2 (fun r r' => norm (Batch.quat_of_row r) <> 0 /\ Batch.rescaled r r')
           rows rows' ->
         get_covariance self' modifier = get_covariance self modifier).
Proof.
  split.
  - intros c q scale modifier Hc Hn.
    pose proof (build_rotation_qscale c q Hc Hn) as E. split; [exact E |].
    unfold build_covariance_from_scaling_rotation, build_scaling_rotation.
    now rewrite E.
  - intros self self' cols rows rows' modifier Hs Ha Hr Hr' Hrows.
    unfold get_covariance, get_scaling.
    rewrite Hs, Ha, Hr, Hr'.
    unfold Batch.build_covariance_from_scaling_rotation,
      Batch.build_scaling_rotation.
    now rewrite (batch_build_rotation_rescaled cols rows rows' Hrows).
Qed.

Lemma covariance_depends_on_rotation_direction_witness :
  2 <> 0
  /\ norm (Quat 1 0 0 0) <> 0
  /\ build_rotation (qscale 2 (Quat 1 0 0 0)) = build_rotation (Quat 1 0 0 0)
  /\ get_covariance Examples.unit_model_doubled 1
     = get_covariance (Examples.unit_model Exp) 1.
Proof.
  assert (H2 : 2 <> 0) by lra.
  assert (Hn : norm (Quat 1 0 0 0) <> 0)
    by (rewrite norm_identity_quat; lra).
  destruct covariance_depends_on_rotation_direction as [Hk Hm].
  split; [exact H2 | split; [exact Hn | split]].
  - exact (proj1 (Hk 2 (Quat 1 0 0 0) (Vec3 1 1 1) 1 H2 Hn)).
  - apply (Hm (Examples.unit_model Exp) Examples.unit_model_doubled
              4%nat [[1; 0; 0; 0]] [map (Rmult 2) [1; 0; 0; 0]]);
      try reflexivity.
    constructor; [| constructor].
    split; [exact Hn | exists 2; split; [exact H2 | reflexivity]].
Defined.

End CovarianceFacts.

(** ** Rows, slices and columns *)

Section ArrayFacts.
Import Py Tensor.

Lemma slice_nil (o : nat) (row : list R) : slice o 0 row = [].
Proof. reflexivity. Qed.

Lemma slice_succ (o w : nat) (row : list R) :
  slice o (S w) row = nth o row 0 :: slice (S o) w row.
Proof. reflexivity. Qed.

Lemma slice_cons (x : R) (o w : nat) (row : list R) :
  slice (S o) w (x :: row) = slice o w row.
Proof.
  unfold slice. rewrite <- seq_shift, map_map. reflexivity.
Qed.

Lemma slice_full (row : list R) : slice 0 (length row) row = row.
Proof.
  induction row as [| x row IH]; [reflexivity |].
  cbn [length]. rewrite slice_succ, slice_cons, IH. reflexivity.
Qed.

Lemma slice_app_l (a b : list R) : slice 0 (length a) (a ++ b) = a.
Proof.
  induction a as [| x a IH]; [reflexivity |].
  cbn [length app]. rewrite slice_succ, slice_cons, IH. reflexivity.
Qed.

Lemma slice_app_r (a b : list R) (o k : nat) :
  slice (length a + o) k (a ++ b) = slice o k b.
Proof.
  induction a as [| x a IH]; [reflexivity |].
  cbn [length app plus]. now rewrite slice_cons.
Qed.

Lemma length_slice (o w : nat) (row : list R) : length (slice o w row) = w.
Proof. unfold slice. now rewrite length_map, length_seq. Qed.

Lemma nth_slice (o w j : nat) (row : list R) :
  (j < w)%nat -> nth j (slice o w row) 0 = nth (o + j) row 0.
Proof.
  revert o j. induction w as [| w IH]; intros o j Hj; [lia |].
  rewrite slice_succ. destruct j as [| j].
  - now rewrite Nat.add_0_r.
  - cbn [nth]. rewrite IH by lia. f_equal. lia.
Qed.

Lemma length_hstack (A B : list (list R)) :
  length A = length B -> length (hstack A B) = length A.
Proof.
  intros H. unfold hstack. rewrite length_map, length_combine, <- H.
  apply Nat.min_id.
Qed.

Lemma map_slice_hstack_l (w : nat) (A B : list (list R)) :
  length A = length B ->
  Forall (fun a => length a = w) A ->
  map (slice 0 w) (hstack A B) = A.
Proof.
  intros HL HA. revert B HL.
  induction HA as [| a A Ha _ IH]; intros [| b B] HL; try discriminate;
    [reflexivity |].
  cbn. injection HL as HL. rewrite <- Ha at 1.
  rewrite slice_app_l. f_equal. now apply IH.
Qed.

Lemma map_slice_hstack_r (w o k : nat) (A B : list (list R)) :
  length A = length B ->
  Forall (fun a => length a = w) A ->
  map (slice (w + o) k) (hstack A B) = map (slice o k) B.
Proof.
  intros HL HA. revert B HL.
  induction HA as [| a A Ha _ IH]; intros [| b B] HL; try discriminate;
    [reflexivity |].
  cbn [hstack combine map fst snd]. injection HL as HL.
  rewrite <- Ha at 1. rewrite slice_app_r. f_equal. now apply IH.
Qed.

Lemma map_slice_full (w : nat) (A : list (list R)) :
  Forall (fun a => length a = w) A -> map (slice 0 w) A = A.
Proof.
  induction 1 as [| a A Ha _ IH]; [reflexivity |].
  cbn [map]. rewrite IH. rewrite <- Ha. now rewrite slice_full.
Qed.

Lemma map_nth_seq {A B : Type} (g : A -> B) (d : A) (l : list A) :
  map (fun i => g (nth i l d)) (seq 0 (length l)) = map g l.
Proof.
  induction l as [| x l IH]; [reflexivity |].
  cbn [length seq map nth]. f_equal.
  rewrite <- seq_shift, map_map. exact IH.
Qed.

(** Stacking the columns read at the positions [idxs] gives, row by row,
    the entries at these positions. *)
Lemma stack_columns (idxs : list nat) (rows : list (list R)) :
  stack_axis1 (length rows)
    (map (fun idx => map (fun row => nth idx row 0) rows) idxs)
  = map (fun row => map (fun idx => nth idx row 0) idxs) rows.
Proof.
  unfold stack_axis1.
  rewrite <- (map_nth_seq (fun row => map (fun idx => nth idx row 0) idxs) []).
  apply map_ext. intros i. rewrite map_map. apply map_ext. intros idx.
  replace 0 with ((fun row => nth idx row 0) []) at 1
    by (now destruct idx).
  apply (map_nth (fun row : list R => nth idx row 0)).
Qed.

Lemma concatenate_cons (c c' : nat) (rows rows' : list (list R))
    (t : tensor) (rest : list tensor) :
  concatenate_axis1 (t :: rest) = Ok (T2 c' rows') ->
  length rows = length rows' ->
  concatenate_axis1 (T2 c rows :: t :: rest)
  = Ok (T2 (c + c') (hstack rows rows')).
Proof.
  intros H HL. cbn [concatenate_axis1] in *. rewrite H. cbn [bind].
  rewrite HL, Nat.eqb_refl. reflexivity.
Qed.

End ArrayFacts.

(** ** Saving and loading a degree-0 model *)

Section CodecFacts.
Import Py Tensor GaussianModel Examples.

Lemma field_at (el : PlyElement) (name : string) (i : nat) :
  index_of name (names el) = Some i ->
  field el name = Ok (map (fun row => nth i row 0) (data el)).
Proof. intros H. unfold field. now rewrite H. Qed.

Lemma length_hstack_n (n : nat) (A B : list (list R)) :
  length A = n -> length B = n -> length (hstack A B) = n.
Proof. intros HA HB. rewrite length_hstack; congruence. Qed.

Lemma concatenate_cons_n (n c c' : nat) (rows rows' : list (list R))
    (t : tensor) (rest : list tensor) :
  length rows = n -> length rows' = n ->
  concatenate_axis1 (t :: rest) = Ok (T2 c' rows') ->
  concatenate_axis1 (T2 c rows :: t :: rest)
  = Ok (T2 (c + c') (hstack rows rows')).
Proof. intros. apply concatenate_cons; congruence. Qed.

Ltac same_length :=
  repeat first [ assumption | reflexivity
               | apply length_hstack_n | rewrite length_map ].

Ltac concatenated n :=
  repeat (apply (concatenate_cons_n n); [same_length | same_length |]);
  reflexivity.

(** The rows that [save_ply] writes for a degree-0 model. *)
Lemma save_standard0 (self : t) (X D O S Rt : list (list R)) :
  sh_degree self = 0%Z ->
  _xyz self = T2 3 X -> _features_dc self = T2 3 D ->
  _opacity self = T2 1 O ->
  _scaling self = T2 3 S -> _rotation self = T2 4 Rt ->
  length D = length X -> length O = length X ->
  length S = length X -> length Rt = length X ->
  save_ply self false false =
  Ok {| properties := standard_dtype0;
        data :=
          hstack X (hstack (map (map rgb_of) D) (hstack D (hstack O
            (hstack (map (map (encode_scale (scaling_activation_type self))) S)
               Rt)))) |}.
Proof.
  intros Hd HX HD HO HS HR LD LO LS LR.
  assert (Hfl : flattened_rest self = Ok None)
    by (unfold flattened_rest; now rewrite Hd).
  unfold save_ply, construct_dtypes. rewrite Hfl, Hd, HX, HD, HO, HS, HR.
  cbn -[concatenate_axis1 assign_rows encode_scale rgb_of].
  match goal with |- context [concatenate_axis1 ?l] =>
    assert (E : concatenate_axis1 l =
      Ok (T2 (3 + (3 + (3 + (1 + (3 + 4)))))
            (hstack X (hstack (map (map rgb_of) D) (hstack D (hstack O
               (hstack
                  (map (map (encode_scale (scaling_activation_type self))) S)
                  Rt)))))))
      by concatenated (length X)
  end.
  rewrite E. cbn [bind assign_rows].
  change (3 + (3 + (3 + (1 + (3 + 4)))) =? _)%nat with true.
  rewrite Bool.orb_true_r. reflexivity.
Qed.

Lemma nth_column (i idx : nat) (rows : list (list R)) :
  nth i (map (fun row => nth idx row 0) rows) 0 = nth idx (nth i rows []) 0.
Proof.
  replace 0 with ((fun row => nth idx row 0) []) at 1 by (now destruct idx).
  apply (map_nth (fun row : list R => nth idx row 0)).
Qed.

(** What [load_ply] reads from a file with the standard degree-0
    properties, whatever its rows. *)
Lemma load_standard0 (fresh : t) (d : list (list R)) :
  sh_degree fresh = 0%Z ->
  load_ply fresh {| properties := standard_dtype0; data := d |} =
  Ok {| sh_degree := 0;
        _xyz := T2 3 (map (slice 0 3) d);
        _features_dc := T3 1 3 (map (fun row => [slice 6 3 row]) d);
        _features_rest := _features_rest fresh;
        _scaling := T2 3 (map (slice 10 3) d);
        _rotation := T2 4 (map (slice 13 4) d);
        _opacity := T2 1 (map (slice 9 1) d);
        scaling_activation_type := scaling_activation_type fresh |}.
Proof.
  intros Hd. unfold load_ply. rewrite Hd.
  set (el := {| properties := standard_dtype0; data := d |}).
  rewrite (field_at el "x" 0 eq_refl), (field_at el "y" 1 eq_refl),
    (field_at el "z" 2 eq_refl), (field_at el "opacity" 9 eq_refl),
    (field_at el "f_dc_0" 6 eq_refl), (field_at el "f_dc_1" 7 eq_refl),
    (field_at el "f_dc_2" 8 eq_refl).
  cbn [bind Z.gtb Z.compare].
  replace (sorted_names el "scale_")
    with (Ok ["scale_0"; "scale_1"; "scale_2"]%string) by reflexivity.
  replace (sorted_names el "rot")
    with (Ok ["rot_0"; "rot_1"; "rot_2"; "rot_3"]%string) by reflexivity.
  unfold read_columns; cbn [bind mapM].
  rewrite (field_at el "scale_0" 10 eq_refl),
    (field_at el "scale_1" 11 eq_refl), (field_at el "scale_2" 12 eq_refl),
    (field_at el "rot_0" 13 eq_refl), (field_at el "rot_1" 14 eq_refl),
    (field_at el "rot_2" 15 eq_refl), (field_at el "rot_3" 16 eq_refl).
  cbn [bind transpose12 data el length]. rewrite !length_map.
  f_equal. f_equal.
  - f_equal. apply (stack_columns [0; 1; 2]%nat).
  - f_equal. rewrite map_map.
    rewrite <- (map_nth_seq (fun row => [slice 6 3 row]) []).
    apply map_ext. intros i. unfold transpose_rows. cbn.
    now rewrite !nth_column.
  - f_equal. apply (stack_columns [10; 11; 12]%nat).
  - f_equal. apply (stack_columns [13; 14; 15; 16]%nat).
  - f_equal. rewrite map_map. reflexivity.
Qed.

Lemma Forall_length_map (f : R -> R) (w : nat) (A : list (list R)) :
  Forall (fun r => length r = w) A ->
  Forall (fun r => length r = w) (map (map f) A).
Proof.
  induction 1; cbn; constructor; auto. now rewrite length_map.
Qed.

Lemma map_eq_Forall {A B : Type} (f g : A -> B) (l : list A) :
  map f l = map g l <-> Forall (fun x => f x = g x) l.
Proof.
  induction l as [| x l IH]; cbn.
  - split; [constructor | reflexivity].
  - split.
    + intros H. injection H as H1 H2. constructor; [assumption | now apply IH].
    + intros H. inversion H; subst. f_equal; [assumption | now apply IH].
Qed.

(** Saving a well-shaped degree-0 model and loading the file. *)
Lemma roundtrip0 (self fresh : t) (X D O S Rt : list (list R)) :
  sh_degree self = 0%Z ->
  _xyz self = T2 3 X -> _features_dc self = T2 3 D ->
  _opacity self = T2 1 O ->
  _scaling self = T2 3 S -> _rotation self = T2 4 Rt ->
  well_shaped (T2 3 X) -> well_shaped (T2 3 D) -> well_shaped (T2 1 O) ->
  well_shaped (T2 3 S) -> well_shaped (T2 4 Rt) ->
  length D = length X -> length O = length X ->
  length S = length X -> length Rt = length X ->
  sh_degree fresh = 0%Z ->
  exists file,
    save_ply self false false = Ok file
    /\ load_ply fresh file =
       Ok {| sh_degree := 0;
             _xyz := T2 3 X;
             _features_dc := T3 1 3 (map (fun row => [row]) D);
             _features_rest := _features_rest fresh;
             _scaling :=
               T2 3 (map (map (encode_scale (scaling_activation_type self))) S);
             _rotation := T2 4 Rt;
             _opacity := T2 1 O;
             scaling_activation_type := scaling_activation_type fresh |}.
Proof.
  intros Hd HX HD HO HS HR WX WD WO WS WR LD LO LS LR Hf.
  cbn [well_shaped] in *.
  eexists. split; [now apply (save_standard0 self X D O S Rt) |].
  rewrite (load_standard0 _ _ Hf).
  set (S' := map (map (encode_scale (scaling_activation_type self))) S).
  set (C := map (map rgb_of) D).
  assert (WC : Forall (fun r => length r = 3%nat) C)
    by now apply Forall_length_map.
  assert (WS' : Forall (fun r => length r = 3%nat) S')
    by now apply Forall_length_map.
  assert (LC : length C = length X) by (unfold C; now rewrite length_map).
  assert (LS' : length S' = length X) by (unfold S'; now rewrite length_map).
  assert (L5 : length (hstack S' Rt) = length X) by same_length.
  assert (L4 : length (hstack O (hstack S' Rt)) = length X) by same_length.
  assert (L3 : length (hstack D (hstack O (hstack S' Rt))) = length X)
    by same_length.
  assert (L2 : length (hstack C (hstack D (hstack O (hstack S' Rt))))
               = length X) by same_length.
  f_equal. f_equal.
  - f_equal. apply map_slice_hstack_l; congruence.
  - f_equal. rewrite <- (map_map (slice 6 3) (fun r => [r])). f_equal.
    change 6%nat with (3 + (3 + 0))%nat.
    rewrite (map_slice_hstack_r 3), (map_slice_hstack_r 3) by congruence.
    apply map_slice_hstack_l; congruence.
  - f_equal. change 10%nat with (3 + (3 + (3 + (1 + 0))))%nat.
    rewrite (map_slice_hstack_r 3), (map_slice_hstack_r 3),
      (map_slice_hstack_r 3), (map_slice_hstack_r 1) by congruence.
    apply map_slice_hstack_l; congruence.
  - f_equal. change 13%nat with (3 + (3 + (3 + (1 + (3 + 0)))))%nat.
    rewrite (map_slice_hstack_r 3), (map_slice_hstack_r 3),
      (map_slice_hstack_r 3), (map_slice_hstack_r 1),
      (map_slice_hstack_r 3) by congruence.
    now apply map_slice_full.
  - f_equal. change 9%nat with (3 + (3 + (3 + 0)))%nat.
    rewrite (map_slice_hstack_r 3), (map_slice_hstack_r 3),
      (map_slice_hstack_r 3) by congruence.
    apply map_slice_hstack_l; congruence.
Qed.

Lemma decode_encode_exp (x : R) :
  decode_scale Exp (encode_scale Exp x) = decode_scale Exp x.
Proof. reflexivity. Qed.

(** What is written as scale is the logarithm of the decoded scale. *)
Lemma encode_scale_log (a : activation) (x : R) :
  encode_scale a x = ln (decode_scale a x).
Proof.
  destruct a as [| multi | lo hi]; cbn [encode_scale decode_scale];
    [now rewrite ln_exp | reflexivity | reflexivity].
Qed.

(** C1, as the code has it: for a well-shaped degree-0 model whose decoded
    scales are positive, the standard save followed by a load into a fresh
    degree-0 model with the same activation gives back the position and
    the opacity, the DC colour values under an added coefficient axis of
    size one, and as raw scale the logarithm [ln (decode x)] of the decoded
    scale, which under the [exp] activation is the raw scale itself.  The
    decoded scale of the reloaded model is that of the original exactly
    when every raw entry [x] has [decode (ln (decode x)) = decode x]; this
    is so for every entry under the [exp] activation. *)
Theorem save_load_degree0 (self fresh : t) (X D O S Rt : list (list R)) :
  sh_degree self = 0%Z ->
  _xyz self = T2 3 X -> _features_dc self = T2 3 D ->
  _opacity self = T2 1 O ->
  _scaling self = T2 3 S -> _rotation self = T2 4 Rt ->
  well_shaped (T2 3 X) -> well_shaped (T2 3 D) -> well_shaped (T2 1 O) ->
  well_shaped (T2 3 S) -> well_shaped (T2 4 Rt) ->
  length D = length X -> length O = length X ->
  length S = length X -> length Rt = length X ->
  sh_degree fresh = 0%Z ->
  scaling_activation_type fresh = scaling_activation_type self ->
  let a := scaling_activation_type self in
  Forall (Forall (fun x => 0 < decode_scale a x)) S ->
  exists file loaded,
    save_ply self false false = Ok file
    /\ load_ply fresh file = Ok loaded
    /\ _xyz loaded = _xyz self
    /\ _opacity loaded = _opacity self
    /\ _features_dc loaded = T3 1 3 (map (fun row => [row]) D)
    /\ _scaling loaded
       = map_tensor (fun x => ln (decode_scale a x)) (_scaling self)
    /\ (a = Exp -> _scaling loaded = _scaling self)
    /\ (get_scaling loaded = get_scaling self <->
        Forall (Forall (fun x =>
                  decode_scale a (ln (decode_scale a x)) = decode_scale a x))
          S)
    /\ (a = Exp -> get_scaling loaded = get_scaling self).
Proof.
  intros Hd HX HD HO HS HR WX WD WO WS WR LD LO LS LR Hf Ha a Hpos.
  destruct (roundtrip0 self fresh X D O S Rt) as (file & Hsave & Hload);
    try assumption.
  exists file. eexists. split; [exact Hsave | split; [exact Hload |]].
  cbn [_xyz _opacity _features_dc _scaling].
  rewrite HX, HO, HS. cbn [map_tensor]. fold a.
  assert (Hlog : map (map (encode_scale a)) S
                 = map (map (fun x => ln (decode_scale a x))) S).
  { apply map_ext. intros r. apply map_ext. intros x.
    apply encode_scale_log. }
  assert (Hexp : a = Exp -> map (map (encode_scale a)) S = S).
  { intros ->. rewrite <- (map_id S) at 2. apply map_ext. intros r.
    apply map_id. }
  assert (Hiff :
    get_scaling
      {| sh_degree := 0; _xyz := T2 3 X;
         _features_dc := T3 1 3 (map (fun row => [row]) D);
         _features_rest := _features_rest fresh;
         _scaling := T2 3 (map (map (encode_scale a)) S);
         _rotation := T2 4 Rt; _opacity := T2 1 O;
         scaling_activation_type := scaling_activation_type fresh |}
    = get_scaling self <->
    Forall (Forall (fun x =>
              decode_scale a (ln (decode_scale a x)) = decode_scale a x)) S).
  { unfold get_scaling. cbn [_scaling scaling_activation_type map_tensor].
    rewrite Ha, HS. fold a. cbn [map_tensor]. rewrite Hlog.
    rewrite map_map.
    split.
    - intros H. injection H as H.
      apply map_eq_Forall in H. revert H. apply Forall_impl. intros r H.
      rewrite map_map in H. now apply map_eq_Forall in H.
    - intros H. f_equal. apply map_eq_Forall. revert H.
      apply Forall_impl. intros r H. rewrite map_map.
      now apply map_eq_Forall. }
  repeat split; try reflexivity; try apply Hiff.
  - now rewrite Hlog.
  - intros Ea. now rewrite (Hexp Ea).
  - intros Ea. apply Hiff. rewrite Ea.
    apply Forall_forall. intros r _. apply Forall_forall. intros x _.
    cbn [decode_scale]. now rewrite ln_exp.
Qed.

Lemma sigmoid_0 : sigmoid 0 = 1 / 2.
Proof. unfold sigmoid. rewrite Ropp_0, exp_0. field. Qed.

Lemma encode_sigmoid_half : encode_scale (Sigmoid 0.5 1.5) 0 = 0.
Proof.
  cbn [encode_scale]. rewrite sigmoid_0.
  replace (0.5 + (1.5 - 0.5) * (1 / 2)) with 1 by lra. apply ln_1.
Qed.

(** C1 fails as stated: under the [sigmoid] activation with bounds 0.5
    and 1.5, the model with raw scale 0 gets its decoded scale back
    exactly, although the activation is not [exp]. *)
Lemma sigmoid_scale_roundtrip_exact :
  exists file loaded,
    save_ply (unit_model (Sigmoid 0.5 1.5)) false false = Ok file
    /\ load_ply (fresh0 (Sigmoid 0.5 1.5)) file = Ok loaded
    /\ get_scaling loaded = get_scaling (unit_model (Sigmoid 0.5 1.5))
    /\ scaling_activation_type (unit_model (Sigmoid 0.5 1.5)) <> Exp.
Proof.
  destruct (roundtrip0 (unit_model (Sigmoid 0.5 1.5))
              (fresh0 (Sigmoid 0.5 1.5))
              [[0; 0; 0]] [[0; 0; 0]] [[0]] [[0; 0; 0]] [[1; 0; 0; 0]])
    as (file & Hsave & Hload); try reflexivity;
    try (cbn [well_shaped]; repeat constructor).
  exists file. eexists. split; [exact Hsave | split; [exact Hload |]].
  split; [| discriminate].
  unfold get_scaling.
  cbn [_scaling scaling_activation_type unit_model fresh0 map_tensor map].
  now rewrite encode_sigmoid_half.
Qed.

(** Under the default [sigmoid] bounds 0.001 and 0.3 the raw scale 0 does
    not get its decoded scale back. *)
Lemma sigmoid_default_roundtrip_inexact :
  decode_scale (Sigmoid 0.001 0.3) (encode_scale (Sigmoid 0.001 0.3) 0)
  <> decode_scale (Sigmoid 0.001 0.3) 0.
Proof.
  cbn [decode_scale encode_scale]. rewrite sigmoid_0.
  replace (0.001 + (0.3 - 0.001) * (1 / 2)) with 0.1505 by lra.
  intros H.
  assert (Hs : sigmoid (ln 0.1505) = 1 / 2) by lra.
  unfold sigmoid in Hs.
  pose proof (exp_pos (- ln 0.1505)) as Hp.
  assert (He : exp (- ln 0.1505) = 1).
  { apply (f_equal (fun v => v * (1 + exp (- ln 0.1505)))) in Hs.
    field_simplify in Hs; lra. }
  assert (Hl : - ln 0.1505 = 0).
  { rewrite <- (ln_exp (- ln 0.1505)), He. apply ln_1. }
  assert (Hx : exp (ln 0.1505) = 0.1505) by (apply exp_ln; lra).
  replace (ln 0.1505) with 0 in Hx by lra.
  rewrite exp_0 in Hx. lra.
Qed.

Lemma save_load_degree0_witness :
  exists file loaded,
    save_ply (unit_model (Sigmoid 0.001 0.3)) false false = Ok file
    /\ load_ply (fresh0 (Sigmoid 0.001 0.3)) file = Ok loaded
    /\ _scaling loaded
       = map_tensor (fun x => ln (decode_scale (Sigmoid 0.001 0.3) x))
           (_scaling (unit_model (Sigmoid 0.001 0.3))).
Proof.
  destruct (save_load_degree0 (unit_model (Sigmoid 0.001 0.3))
              (fresh0 (Sigmoid 0.001 0.3))
              [[0; 0; 0]] [[0; 0; 0]] [[0]] [[0; 0; 0]] [[1; 0; 0; 0]])
    as (file & loaded & Hsave & Hload & _ & _ & _ & Hscale & _);
    try reflexivity; try (cbn [well_shaped]; repeat constructor);
    try (cbn [unit_model scaling_activation_type decode_scale];
         rewrite sigmoid_0; lra).
  exists file, loaded. repeat split; assumption.
Defined.

Lemma length_concat_transpose (b : nat) (s : list (list R)) :
  length (concat (transpose_rows b s)) = (b * length s)%nat.
Proof.
  unfold transpose_rows. rewrite <- (length_seq b 0) at 2.
  induction (seq 0 b) as [| j l IH]; [reflexivity |].
  cbn [map concat length]. rewrite length_app, length_map, IH. reflexivity.
Qed.

Lemma Forall_flat_width (a b : nat) (T : list (list (list R))) :
  Forall (fun s => length s = a /\ Forall (fun r => length r = b) s) T ->
  Forall (fun r => length r = (b * a)%nat) (map (@concat R) (map (transpose_rows b) T)).
Proof.
  induction 1 as [| s T [Hs _] _ IH]; cbn [map]; constructor; [| exact IH].
  now rewrite length_concat_transpose, Hs.
Qed.

Lemma mapM_field (el : PlyElement) (names : list string) (idxs : list nat) :
  Forall2 (fun name idx => index_of name (GaussianModel.names el) = Some idx) names idxs ->
  mapM (field el) names
  = Ok (map (fun idx => map (fun row => nth idx row 0) (data el)) idxs).
Proof.
  induction 1 as [| name idx names idxs H _ IH]; [reflexivity |].
  cbn [mapM map]. rewrite (field_at _ _ _ H), IH. reflexivity.
Qed.

Lemma rest_block_viewer (d : list (list R)) :
  rest_block {| properties := viewer_dtype; data := d |}
  = Ok (T2 45 (map (slice 9 45) d)).
Proof.
  unfold rest_block, read_columns.
  set (el := {| properties := viewer_dtype; data := d |}).
  replace (filter (fun name => startswith name "f_rest_") (names el))
    with (map fst (numbered "f_rest_" "f4" 45)) by reflexivity.
  rewrite (mapM_field el _ (seq 9 45)).
  - cbn [bind data el]. rewrite stack_columns. f_equal.
  - cbv [numbered seq map fst]. repeat constructor.
Qed.

Lemma save_viewer1 (self : t) (X O S Rt : list (list R)) (D F : list (list (list R))) :
  sh_degree self = 1%Z ->
  _xyz self = T2 3 X -> _features_dc self = T3 1 3 D ->
  _features_rest self = Some (T3 3 3 F) ->
  _opacity self = T2 1 O ->
  _scaling self = T2 3 S -> _rotation self = T2 4 Rt ->
  length D = length X -> length F = length X -> length O = length X ->
  length S = length X -> length Rt = length X ->
  let dc := map (@concat R) (map (transpose_rows 3) D) in
  let rest := map (@concat R) (map (transpose_rows 3) F) in
  flattened_rest self = Ok (Some (T2 9 rest))
  /\ save_ply self false true =
     Ok {| properties := viewer_dtype;
           data :=
             hstack X (hstack (map (map rgb_of) dc) (hstack dc
               (hstack (map (fun r => r ++ repeat 0 36) rest) (hstack O
                 (hstack (map (map (encode_scale (scaling_activation_type self))) S)
                    Rt))))) |}.
Proof.
  intros Hd HX HD HF HO HS HR LD LF LO LS LR dc rest.
  assert (Hfl : flattened_rest self = Ok (Some (T2 9 rest))).
  { unfold flattened_rest, rest_tensor. rewrite Hd, HF. reflexivity. }
  split; [exact Hfl |].
  unfold save_ply, construct_dtypes. rewrite Hfl, Hd, HX, HD, HO, HS, HR.
  cbn -[concatenate_axis1 assign_rows encode_scale rgb_of pad_rest repeat numbered].
  fold dc. unfold pad_rest.
  replace (length rest =? length X)%nat with true
    by (symmetry; apply Nat.eqb_eq; unfold rest; now rewrite !length_map).
  cbn [bind]. change (45 - 9)%nat with 36%nat.
  match goal with |- context [concatenate_axis1 ?l] =>
    assert (E : concatenate_axis1 l =
      Ok (T2 (3 + (3 + (3 + (45 + (1 + (3 + 4))))))
            (hstack X (hstack (map (map rgb_of) dc) (hstack dc
               (hstack (map (fun r => r ++ repeat 0 36) rest) (hstack O
                 (hstack
                    (map (map (encode_scale (scaling_activation_type self))) S)
                    Rt))))))))
      by (subst dc rest; concatenated (length X))
  end.
  rewrite E. cbn [bind assign_rows].
  match goal with |- context [(?a =? ?b)%nat] =>
    match a with
    | (3 + _)%nat => replace (a =? b)%nat with true by reflexivity
    end
  end.
  rewrite Bool.orb_true_r. reflexivity.
Qed.

Lemma Forall_padded (w k : nat) (rows : list (list R)) :
  Forall (fun r => length r = w) rows ->
  Forall (fun r => length r = (w + k)%nat)
    (map (fun r => r ++ repeat 0 k) rows).
Proof.
  induction 1 as [| r rows Hr _ IH]; cbn [map]; constructor; [| exact IH].
  now rewrite length_app, repeat_length, Hr.
Qed.

(** C3, as the code has it: the viewer save of a well-shaped degree-1
    model writes 45 properties named [f_rest_0] to [f_rest_44], and their
    values are, for each primitive, the 9 rest coefficients of the model
    followed by 36 zeros. *)
Theorem viewer_save_degree1_padding (self : t) (X O S Rt : list (list R))
    (D F : list (list (list R))) :
  sh_degree self = 1%Z ->
  _xyz self = T2 3 X -> _features_dc self = T3 1 3 D ->
  _features_rest self = Some (T3 3 3 F) ->
  _opacity self = T2 1 O ->
  _scaling self = T2 3 S -> _rotation self = T2 4 Rt ->
  well_shaped (T2 3 X) -> well_shaped (T3 1 3 D) -> well_shaped (T3 3 3 F) ->
  length D = length X -> length F = length X -> length O = length X ->
  length S = length X -> length Rt = length X ->
  exists file,
    save_ply self false true = Ok file
    /\ filter (fun name => startswith name "f_rest_") (names file)
       = map (fun i => ("f_rest_" ++ str i)%string) (seq 0 45)
    /\ padded_as 9 36 self file.
Proof.
  intros Hd HX HD HF HO HS HR WX WD WF LD LF LO LS LR.
  destruct (save_viewer1 self X O S Rt D F) as [Hfl Hsave]; try assumption.
  cbv zeta in Hfl, Hsave.
  eexists. split; [exact Hsave | split; [reflexivity |]].
  eexists. split; [exact Hfl |].
  rewrite rest_block_viewer. f_equal. f_equal.
  cbn [well_shaped] in WX, WD, WF.
  set (dc := map (@concat R) (map (transpose_rows 3) D)) in *.
  set (rest := map (@concat R) (map (transpose_rows 3) F)) in *.
  assert (Wdc : Forall (fun r => length r = 3%nat) dc)
    by apply (Forall_flat_width 1 3 D WD).
  assert (Wrest : Forall (fun r => length r = 9%nat) rest)
    by apply (Forall_flat_width 3 3 F WF).
  assert (Ldc : length dc = length X) by (unfold dc; now rewrite !length_map).
  assert (Lrest : length rest = length X)
    by (unfold rest; now rewrite !length_map).
  set (S' := map (map (encode_scale (scaling_activation_type self))) S) in *.
  set (P := map (fun r => r ++ repeat 0 36) rest) in *.
  set (C := map (map rgb_of) dc) in *.
  assert (WC : Forall (fun r => length r = 3%nat) C)
    by now apply Forall_length_map.
  assert (LC : length C = length X) by (unfold C; now rewrite length_map).
  assert (LP : length P = length X) by (unfold P; now rewrite length_map).
  assert (LS' : length S' = length X) by (unfold S'; now rewrite length_map).
  assert (L5 : length (hstack O (hstack S' Rt)) = length X) by same_length.
  assert (L4 : length (hstack P (hstack O (hstack S' Rt))) = length X)
    by same_length.
  assert (L3 : length (hstack dc (hstack P (hstack O (hstack S' Rt))))
               = length X) by same_length.
  assert (L2 : length (hstack C (hstack dc (hstack P (hstack O
                  (hstack S' Rt))))) = length X) by same_length.
  change 9%nat with (3 + (3 + (3 + 0)))%nat at 1.
  rewrite (map_slice_hstack_r 3), (map_slice_hstack_r 3),
    (map_slice_hstack_r 3) by congruence.
  apply map_slice_hstack_l; [congruence |].
  apply (Forall_padded 9 36 rest Wrest).
Qed.

Lemma viewer_save_degree1_padding_witness :
  exists file,
    save_ply degree1_ones false true = Ok file
    /\ padded_as 9 36 degree1_ones file.
Proof.
  destruct (viewer_save_degree1_padding degree1_ones
              [[0; 0; 0]] [[0]] [[0; 0; 0]] [[1; 0; 0; 0]]
              [[[0; 0; 0]]] [[[1; 1; 1]; [1; 1; 1]; [1; 1; 1]]])
    as (file & Hsave & _ & Hpad); try reflexivity;
    try (cbn [well_shaped]; repeat constructor).
  exists file. split; assumption.
Defined.

(** C3 fails as stated: the viewer file of a degree-1 model whose nine
    rest coefficients are 1 holds these nine values followed by 36 zeros,
    not 18 coefficients of the model followed by 27 zeros. *)
Lemma viewer_save_degree1_not_18_27 :
  exists file,
    save_ply degree1_ones false true = Ok file
    /\ rest_block file = Ok (T2 45 [repeat 1 9 ++ repeat 0 36])
    /\ ~ padded_as 18 27 degree1_ones file.
Proof.
  destruct (save_viewer1 degree1_ones
              [[0; 0; 0]] [[0]] [[0; 0; 0]] [[1; 0; 0; 0]]
              [[[0; 0; 0]]] [[[1; 1; 1]; [1; 1; 1]; [1; 1; 1]]])
    as [Hfl Hsave]; try reflexivity.
  cbv zeta in Hfl, Hsave.
  eexists. split; [exact Hsave | split].
  - rewrite rest_block_viewer. reflexivity.
  - intros (rows & Hfl' & _). rewrite Hfl in Hfl'. discriminate Hfl'.
Qed.

End CodecFacts.

(** ** Sorting property names by their numeric suffix *)

Section SortFacts.
Import Py.

Lemma insert_by_key_perm (k : Z) (x : string) (l : list (Z * string)) :
  Permutation (insert_by_key k x l) ((k, x) :: l).
Proof.
  induction l as [| [k' y] l IH]; cbn [insert_by_key]; [reflexivity |].
  destruct (k <=? k')%Z; [reflexivity |].
  rewrite IH. apply perm_swap.
Qed.

Lemma sort_keyed_perm (l : list (Z * string)) : Permutation (sort_keyed l) l.
Proof.
  induction l as [| [k x] l IH]; cbn; [reflexivity |].
  rewrite insert_by_key_perm. now constructor.
Qed.

Lemma insert_by_key_sorted (k : Z) (x : string) (l : list (Z * string)) :
  StronglySorted key_le l -> StronglySorted key_le (insert_by_key k x l).
Proof.
  induction 1 as [| [k' y] l Hs IH Hall]; cbn [insert_by_key].
  - repeat constructor.
  - destruct (k <=? k')%Z eqn:E.
    + apply Z.leb_le in E. constructor; [now constructor |].
      constructor; [exact E |].
      revert Hall. apply Forall_impl. intros b Hb. unfold key_le in *.
      cbn [fst] in *. lia.
    + apply Z.leb_gt in E. constructor; [exact IH |].
      apply (Permutation_Forall (Permutation_sym (insert_by_key_perm k x l))).
      constructor; [unfold key_le; cbn [fst]; lia | exact Hall].
Qed.

Lemma sort_keyed_sorted (l : list (Z * string)) :
  StronglySorted key_le (sort_keyed l).
Proof.
  induction l as [| [k x] l IH]; cbn; [constructor |].
  now apply insert_by_key_sorted.
Qed.

Lemma keyed_names (names : list string) (keyed : list (Z * string)) :
  mapM (fun x => k <- suffix_key x ;; Ok (k, x)) names = Ok keyed ->
  map snd keyed = names
  /\ Forall (fun kx => suffix_key (snd kx) = Ok (fst kx)) keyed.
Proof.
  revert keyed. induction names as [| x names IH]; intros keyed H; cbn in H.
  - injection H as <-. split; constructor.
  - destruct (suffix_key x) as [k |] eqn:Ek; [| discriminate].
    cbn [bind] in H.
    destruct (mapM _ names) as [keyed' |]; [| discriminate].
    cbn [bind] in H. injection H as <-.
    destruct (IH keyed' eq_refl) as [Hm Hf].
    split; [cbn; now rewrite Hm | constructor; assumption].
Qed.

Lemma sorted_by_suffix_spec (names extra : list string) :
  sorted_by_suffix names = Ok extra ->
  Permutation extra names /\ StronglySorted suffix_le extra.
Proof.
  unfold sorted_by_suffix. intros H.
  destruct (mapM _ names) as [keyed |] eqn:Ek; [| discriminate].
  cbn [bind] in H. injection H as <-.
  destruct (keyed_names _ _ Ek) as [Hm Hf].
  split.
  - rewrite <- Hm. apply Permutation_map, sort_keyed_perm.
  - assert (Hf' : Forall (fun kx => suffix_key (snd kx) = Ok (fst kx))
                    (sort_keyed keyed))
      by (apply (Permutation_Forall (Permutation_sym (sort_keyed_perm keyed)));
          exact Hf).
    pose proof (sort_keyed_sorted keyed) as Hs.
    induction Hs as [| a l Hs IH Hall]; cbn [map]; [constructor |].
    inversion Hf' as [| ? ? Ha Hl]; subst.
    constructor; [now apply IH |].
    apply Forall_map.
    apply Forall_forall. intros b Hb.
    exists (fst a), (fst b). split; [exact Ha | split].
    + exact (proj1 (Forall_forall _ _) Hl b Hb).
    + exact (proj1 (Forall_forall _ _) Hall b Hb).
Qed.

Lemma sorted_by_suffix_total (names : list string) :
  (forall x, In x names -> int (split_last x) <> None) ->
  exists extra, sorted_by_suffix names = Ok extra.
Proof.
  intros H. unfold sorted_by_suffix.
  assert (E : exists keyed,
             mapM (fun x => k <- suffix_key x ;; Ok (k, x)) names = Ok keyed).
  { induction names as [| x names IH]; [now eexists |].
    destruct IH as [keyed IH]; [intros y Hy; apply H; now right |].
    cbn [mapM]. unfold suffix_key at 1.
    destruct (int (split_last x)) as [k |] eqn:Ek;
      [| exfalso; apply (H x); [now left | exact Ek]].
    cbn [bind]. rewrite IH. now eexists. }
  destruct E as [keyed ->]. now eexists.
Qed.

Lemma mapM_error {A B : Type} (f : A -> result B) (l : list A) (e : error) :
  (forall a e', f a = Err e' -> e' = ValueError) ->
  mapM f l = Err e -> e = ValueError.
Proof.
  intros Hf. induction l as [| a l IH]; cbn [mapM]; [discriminate |].
  destruct (f a) as [b | e'] eqn:Ea; cbn [bind].
  - destruct (mapM f l) as [bs | e'']; cbn [bind]; [discriminate |].
    intros H. injection H as <-. now apply IH.
  - intros H. injection H as <-. now apply (Hf a).
Qed.

Lemma sorted_by_suffix_error (names : list string) (e : error) :
  sorted_by_suffix names = Err e -> e = ValueError.
Proof.
  unfold sorted_by_suffix. intros H.
  destruct (mapM _ names) as [keyed | e'] eqn:Ek; [discriminate |].
  cbn [bind] in H. injection H as <-.
  revert Ek. apply mapM_error. intros a e2. unfold suffix_key.
  destruct (int (split_last a)); cbn [bind]; [discriminate |].
  now intros H; injection H as <-.
Qed.

Lemma index_of_In (name : string) (l : list string) :
  In name l -> exists i, index_of name l = Some i.
Proof.
  induction l as [| x l IH]; [contradiction |].
  intros H. cbn [index_of].
  destruct (String.eqb name x) eqn:E; [now eexists |].
  destruct H as [-> | H]; [now rewrite String.eqb_refl in E |].
  destruct (IH H) as [i ->]. now eexists.
Qed.

Lemma index_of_Some_In (name : string) (l : list string) (i : nat) :
  index_of name l = Some i -> In name l.
Proof.
  revert i. induction l as [| x l IH]; intros i; cbn [index_of];
    [discriminate |].
  destruct (String.eqb name x) eqn:E.
  - intros _. left. symmetry. now apply String.eqb_eq.
  - destruct (index_of name l) as [j |]; [| discriminate].
    intros _. right. now apply (IH j).
Qed.

End SortFacts.

(** ** Loading the rest coefficients *)

Section LoadFacts.
Import Py Tensor GaussianModel Examples.

Lemma field_present (el : PlyElement) (name : string) :
  In name (names el) ->
  exists i, field el name = Ok (map (fun row => nth i row 0) (data el)).
Proof.
  intros H. destruct (index_of_In _ _ H) as [i Hi].
  exists i. now apply field_at.
Qed.

Lemma field_error (el : PlyElement) (name : string) (e : error) :
  field el name = Err e -> e = ValueError.
Proof.
  unfold field. destruct (index_of name (names el)); [discriminate |].
  now intros H; injection H as <-.
Qed.

Lemma read_columns_error (el : PlyElement) (n : nat) (l : list string)
    (e : error) :
  read_columns el n l = Err e -> e = ValueError.
Proof.
  unfold read_columns. intros H.
  destruct (mapM (field el) l) as [cols | e'] eqn:Em; [discriminate |].
  cbn [bind] in H. injection H as <-.
  revert Em. apply mapM_error. apply field_error.
Qed.

Lemma mapM_field_total (el : PlyElement) (l : list string) :
  (forall x, In x l -> In x (names el)) ->
  exists cols, mapM (field el) l = Ok cols.
Proof.
  induction l as [| x l IH]; intros H; [now eexists |].
  destruct (field_present el x) as [i Hi]; [apply H; now left |].
  destruct IH as [cols Hc]; [intros y Hy; apply H; now right |].
  cbn [mapM]. rewrite Hi, Hc. now eexists.
Qed.

Lemma mapM_nth (el : PlyElement) (l : list string) (cols : list (list R))
    (i : nat) :
  mapM (field el) l = Ok cols -> (i < length l)%nat ->
  field el (nth i l ""%string) = Ok (nth i cols []).
Proof.
  revert cols i. induction l as [| x l IH]; intros cols i H Hi;
    [cbn in Hi; lia |].
  cbn [mapM] in H.
  destruct (field el x) as [col |] eqn:Ex; [| discriminate].
  cbn [bind] in H.
  destruct (mapM (field el) l) as [cols' |] eqn:El; [| discriminate].
  cbn [bind] in H. injection H as <-.
  destruct i as [| i]; [exact Ex |].
  cbn [nth]. apply IH; [reflexivity | cbn in Hi; lia].
Qed.

Lemma nth_map_seq {A : Type} (h : nat -> A) (d : A) (n N : nat) :
  (n < N)%nat -> nth n (map h (seq 0 N)) d = h n.
Proof.
  intros H.
  rewrite (nth_indep _ d (h O)) by now rewrite length_map, length_seq.
  rewrite map_nth, seq_nth by assumption. reflexivity.
Qed.

(** Entry [n, j, c] of the loaded rest field is entry [n] of the column
    number [c * k + j]. *)
Lemma rest_entry (k N : nat) (cols : list (list R)) (n j c : nat) :
  (n < N)%nat -> (j < k)%nat -> (c < 3)%nat ->
  nth c (nth j (nth n (map (transpose_rows k)
                         (map (chunks 3 k) (stack_axis1 N cols))) []) []) 0
  = nth n (nth (c * k + j) cols []) 0.
Proof.
  intros Hn Hj Hc. rewrite map_map. unfold stack_axis1. rewrite map_map.
  rewrite nth_map_seq by assumption.
  unfold transpose_rows. rewrite nth_map_seq by assumption.
  unfold chunks. rewrite map_map. rewrite nth_map_seq by assumption.
  rewrite nth_slice by assumption.
  apply nth_column.
Qed.

(** C8, as the code has it: for a model of positive degree [d] and a
    file that has the properties x, y, z, opacity, f_dc_0, f_dc_1 and
    f_dc_2 and whose properties named [f_rest_...] all end in an integer,
    [load_ply] fails on its assertion exactly when the number of these
    properties is not [3 (d+1)^2 - 3].  When [load_ply] succeeds, these
    properties sorted by their numeric suffix fill the rest field, of
    shape [N x ((d+1)^2 - 1) x 3]: with [k = (d+1)^2 - 1], its entry
    [n, j, c] is the value for primitive [n] of the property number
    [c * k + j] in the sorted order. *)
Theorem load_ply_rest_count (self : t) (el : PlyElement) :
  (0 < sh_degree self)%Z ->
  Forall (fun name => In name (names el))
    ["x"; "y"; "z"; "opacity"; "f_dc_0"; "f_dc_1"; "f_dc_2"]%string ->
  (forall name, In name (names el) -> startswith name "f_rest_" = true ->
                int (split_last name) <> None) ->
  let d := sh_degree self in
  let rest_names := filter (fun name => startswith name "f_rest_") (names el) in
  let k := Z.to_nat ((d + 1) ^ 2 - 1) in
  (load_ply self el = Err AssertionError <->
   Z.of_nat (length rest_names) <> (3 * (d + 1) ^ 2 - 3)%Z)
  /\ (forall loaded, load_ply self el = Ok loaded ->
        exists extra t,
          sorted_names el "f_rest_" = Ok extra
          /\ Permutation extra rest_names
          /\ StronglySorted suffix_le extra
          /\ _features_rest loaded = Some (T3 k 3 t)
          /\ length t = length (data el)
          /\ forall n j c,
               (n < length (data el))%nat -> (j < k)%nat -> (c < 3)%nat ->
               exists col,
                 field el (nth (c * k + j) extra ""%string) = Ok col
                 /\ nth c (nth j (nth n t []) []) 0 = nth n col 0).
Proof.
  intros Hd Hfixed Hint d rest_names k.
  assert (Hx : forall name,
             In name ["x"; "y"; "z"; "opacity"; "f_dc_0"; "f_dc_1"; "f_dc_2"]%string ->
             exists i, field el name
                       = Ok (map (fun row => nth i row 0) (data el))).
  { intros name Hn. apply field_present.
    exact (proj1 (Forall_forall _ _) Hfixed name Hn). }
  destruct (Hx "x"%string) as [ix Ex]; [cbn; tauto |].
  destruct (Hx "y"%string) as [iy Ey]; [cbn; tauto |].
  destruct (Hx "z"%string) as [iz Ez]; [cbn; tauto |].
  destruct (Hx "opacity"%string) as [io Eo]; [cbn; tauto |].
  destruct (Hx "f_dc_0"%string) as [i0 E0]; [cbn; tauto |].
  destruct (Hx "f_dc_1"%string) as [i1 E1]; [cbn; tauto |].
  destruct (Hx "f_dc_2"%string) as [i2 E2]; [cbn; tauto |].
  destruct (sorted_by_suffix_total rest_names) as [extra Hextra].
  { intros x Hin. apply filter_In in Hin. destruct Hin as [Hin Hp].
    now apply Hint. }
  destruct (sorted_by_suffix_spec _ _ Hextra) as [Hperm Hsorted].
  assert (Hlen : length extra = length rest_names)
    by now apply Permutation_length.
  destruct (mapM_field_total el extra) as [cols Hcols].
  { intros x Hin. apply (Permutation_in _ Hperm) in Hin.
    apply filter_In in Hin. tauto. }
  assert (Hpos : (sh_degree self >? 0)%Z = true) by (apply Z.gtb_lt; lia).
  remember (load_ply self el) as r eqn:Hr.
  unfold load_ply in Hr.
  rewrite Ex, Ey, Ez, Eo, E0, E1, E2, Hpos in Hr. cbn [bind] in Hr.
  rewrite !length_map in Hr.
  unfold sorted_names at 1 in Hr. fold rest_names in Hr.
  rewrite Hextra in Hr. cbn [bind] in Hr.
  fold d in Hr. rewrite Hlen in Hr.
  destruct (Z.of_nat (length rest_names) =? 3 * (d + 1) ^ 2 - 3)%Z eqn:Ecount.
  - apply Z.eqb_eq in Ecount. cbn [py_assert bind] in Hr.
    unfold read_columns at 1 in Hr. rewrite Hcols in Hr. cbn [bind] in Hr.
    fold k in Hr.
    assert (Hcases :
      r = Err ValueError
      \/ exists dc scales rots,
           r = Ok {| sh_degree := sh_degree self;
                     _xyz :=
                       T2 3 (stack_axis1 (length (data el))
                               [map (fun row => nth ix row 0) (data el);
                                map (fun row => nth iy row 0) (data el);
                                map (fun row => nth iz row 0) (data el)]);
                     _features_dc := dc;
                     _features_rest :=
                       Some (T3 k 3
                               (map (transpose_rows k)
                                  (map (chunks 3 k)
                                     (stack_axis1 (length (data el)) cols))));
                     _scaling := scales;
                     _rotation := rots;
                     _opacity :=
                       T2 1 (map (fun v => [v])
                               (map (fun row => nth io row 0) (data el)));
                     scaling_activation_type :=
                       scaling_activation_type self |}).
    { destruct (sorted_names el "scale_") as [scale_names | e1] eqn:Es;
        cbn [bind] in Hr.
      2:{ apply sorted_by_suffix_error in Es. subst e1. now left. }
      destruct (read_columns el (length (data el)) scale_names)
        as [scales | e2] eqn:Esc; cbn [bind] in Hr.
      2:{ apply read_columns_error in Esc. subst e2. now left. }
      destruct (sorted_names el "rot") as [rot_names | e3] eqn:Er;
        cbn [bind] in Hr.
      2:{ apply sorted_by_suffix_error in Er. subst e3. now left. }
      destruct (read_columns el (length (data el)) rot_names)
        as [rots | e4] eqn:Ero; cbn [bind] in Hr.
      2:{ apply read_columns_error in Ero. subst e4. now left. }
      cbn [transpose12 bind] in Hr.
      right. eexists _, scales, rots. exact Hr. }
    clear Hr.
    destruct Hcases as [-> | (dc & scales & rots & ->)].
    + split; [split; [discriminate | congruence] |
              intros loaded Hl; discriminate Hl].
    + split; [split; [discriminate | congruence] |].
      intros loaded Hl. injection Hl as <-.
      exists extra. eexists.
      split; [exact Hextra | split; [exact Hperm | split; [exact Hsorted |]]].
      cbn [_features_rest]. split; [reflexivity | split].
      * unfold stack_axis1. now rewrite !length_map, length_seq.
      * intros n j c Hn Hj Hc.
        exists (nth (c * k + j) cols []). split.
        -- apply (mapM_nth el extra cols); [exact Hcols |].
           rewrite Hlen. apply Nat2Z.inj_lt. rewrite Ecount.
           assert (Hk : Z.of_nat k = ((d + 1) ^ 2 - 1)%Z).
           { unfold k. apply Z2Nat.id. subst d. nia. }
           nia.
        -- now apply rest_entry.
  - apply Z.eqb_neq in Ecount. cbn [py_assert bind] in Hr. subst r.
    split; [split; [intros _; exact Ecount | reflexivity] |
            intros loaded Hl; discriminate Hl].
Qed.

(** Loading [rest9_file] into a degree-1 model: the rest properties are
    read in the order of their suffixes. *)
Lemma load_rest9_file :
  exists loaded,
    load_ply degree1_empty rest9_file = Ok loaded
    /\ _features_rest loaded
       = Some (T3 3 3 [[[0; 3; 6]; [1; 4; 7]; [2; 5; 8]]]).
Proof. eexists. split; reflexivity. Qed.

Lemma load_ply_rest_count_witness :
  Z.of_nat (length (filter (fun name => startswith name "f_rest_")
                      (names rest9_file))) = 9%Z
  /\ load_ply degree1_empty rest9_file <> Err AssertionError
  /\ exists loaded extra t,
       load_ply degree1_empty rest9_file = Ok loaded
       /\ sorted_names rest9_file "f_rest_" = Ok extra
       /\ StronglySorted suffix_le extra
       /\ _features_rest loaded = Some (T3 3 3 t).
Proof.
  destruct (load_ply_rest_count degree1_empty rest9_file) as [Hiff Hok].
  - reflexivity.
  - repeat (apply Forall_cons;
            [eapply index_of_Some_In; reflexivity |]).
    apply Forall_nil.
  - intros name Hin Hp. cbn in Hin.
    repeat (destruct Hin as [<- | Hin];
            [first [discriminate Hp | vm_compute; discriminate] |]).
    contradiction.
  - split; [reflexivity | split].
    + intros H. apply Hiff in H. apply H. reflexivity.
    + destruct load_rest9_file as (loaded & Hl & _).
      destruct (Hok loaded Hl) as (extra & t & Hs & _ & Hsorted & Hrest & _).
      exists loaded, extra, t. repeat split; assumption.
Defined.

(** C8 fails as stated: with the property [f_rest_x] the number of rest
    properties, 1, differs from the 9 that degree 1 expects, and
    [load_ply] fails while sorting the names, before its assertion. *)
Lemma load_ply_malformed_suffix :
  Forall (fun name => In name (names malformed_file))
    ["x"; "y"; "z"; "opacity"; "f_dc_0"; "f_dc_1"; "f_dc_2"]%string
  /\ Z.of_nat (length (filter (fun name => startswith name "f_rest_")
                         (names malformed_file)))
     <> (3 * (sh_degree degree1_empty + 1) ^ 2 - 3)%Z
  /\ load_ply degree1_empty malformed_file = Err ValueError
  /\ load_ply degree1_empty malformed_file <> Err AssertionError.
Proof.
  assert (H : load_ply degree1_empty malformed_file = Err ValueError)
    by reflexivity.
  split; [repeat (apply Forall_cons;
                  [eapply index_of_Some_In; reflexivity |]);
          apply Forall_nil |].
  split; [vm_compute; discriminate |].
  split; [exact H | rewrite H; discriminate].
Qed.

End LoadFacts.

(** ** Rotations and covariances of any quaternion *)

Section KernelExtras.
Import Kernels.

Lemma unit_rotation_facts (a b c d : R) :
  a * a + b * b + c * c + d * d = 1 ->
  let A := Mat3 (1 - 2 * (c * c + d * d)) (2 * (b * c - a * d))
                (2 * (b * d + a * c))
                (2 * (b * c + a * d)) (1 - 2 * (b * b + d * d))
                (2 * (c * d - a * b))
                (2 * (b * d - a * c)) (2 * (c * d + a * b))
                (1 - 2 * (b * b + c * c)) in
  orthonormal A /\ det A = 1.
Proof.
  intros Hu A. unfold A. split; [split |].
  - unfold matmul, transpose, identity3;
      cbn [m00 m01 m02 m10 m11 m12 m20 m21 m22]; f_equal; nsatz.
  - unfold matmul, transpose, identity3;
      cbn [m00 m01 m02 m10 m11 m12 m20 m21 m22]; f_equal; nsatz.
  - unfold det; cbn [m00 m01 m02 m10 m11 m12 m20 m21 m22]. nsatz.
Qed.

Lemma norm_nonneg (q : quat) : 0 <= norm q.
Proof. apply sqrt_pos. Qed.

Lemma norm_normalised (q : quat) :
  norm q <> 0 -> norm (qscale (/ norm q) q) = 1.
Proof.
  intros Hn. rewrite norm_qscale.
  pose proof (norm_nonneg q) as Hp.
  rewrite Rabs_right.
  - now apply Rinv_l.
  - apply Rle_ge. left. apply Rinv_0_lt_compat. lra.
Qed.

Lemma rotation_of_nonzero (q : quat) :
  norm q <> 0 ->
  orthonormal (build_rotation q) /\ det (build_rotation q) = 1.
Proof.
  intros Hn.
  rewrite <- (build_rotation_qscale (/ norm q) q)
    by (try apply Rinv_neq_0_compat; assumption).
  pose proof (norm_normalised q Hn) as Hu.
  rewrite (build_rotation_unit _ Hu).
  apply unit_rotation_facts.
  rewrite <- norm_sqr, Hu. ring.
Qed.

(** X1: for every quaternion of nonzero norm, unit or not,
    [build_rotation] returns a rotation matrix: orthonormal, of
    determinant 1, whose transpose is the matrix of the conjugate
    quaternion. *)
Theorem build_rotation_nonzero_is_rotation (q : quat) :
  norm q <> 0 ->
  orthonormal (build_rotation q)
  /\ det (build_rotation q) = 1
  /\ transpose (build_rotation q)
     = build_rotation (Quat (q0 q) (- q1 q) (- q2 q) (- q3 q)).
Proof.
  intros Hn. destruct (rotation_of_nonzero q Hn) as [Ho Hd].
  split; [exact Ho | split; [exact Hd |]].
  unfold build_rotation, qdiv, norm, transpose.
  cbn [q0 q1 q2 q3 m00 m01 m02 m10 m11 m12 m20 m21 m22].
  replace (- q1 q * - q1 q) with (q1 q * q1 q) by ring.
  replace (- q2 q * - q2 q) with (q2 q * q2 q) by ring.
  replace (- q3 q * - q3 q) with (q3 q * q3 q) by ring.
  f_equal; unfold Rdiv; ring.
Qed.

Lemma norm_2000 : norm (Quat 0 0 2 0) <> 0.
Proof.
  intros H. pose proof (norm_sqr (Quat 0 0 2 0)) as Hs.
  rewrite H in Hs. cbn [q0 q1 q2 q3] in Hs. lra.
Qed.

Lemma build_rotation_nonzero_is_rotation_witness :
  norm (Quat 0 0 2 0) <> 0 /\ det (build_rotation (Quat 0 0 2 0)) = 1.
Proof.
  split; [exact norm_2000 |].
  exact (proj1 (proj2 (build_rotation_nonzero_is_rotation (Quat 0 0 2 0)
                         norm_2000))).
Defined.

Lemma det_gram (L : mat3) : det (matmul L (transpose L)) = det L * det L.
Proof.
  unfold det, matmul, transpose; cbn [m00 m01 m02 m10 m11 m12 m20 m21 m22].
  ring.
Qed.

Lemma det_matmul_diag (A : mat3) (s : vec3) :
  det (matmul A (diag s)) = det A * (v0 s * v1 s * v2 s).
Proof.
  unfold det, matmul, diag; cbn [m00 m01 m02 m10 m11 m12 m20 m21 m22].
  ring.
Qed.

(** X2: for a quaternion of nonzero norm the covariance is [A D A^T],
    where [A = build_rotation q] and [D] is the diagonal matrix of the
    squares [(modifier * scale_i)^2]; every entry is [modifier^2] times
    the entry obtained with the modifier 1. *)
Theorem covariance_modifier_quadratic (scale : vec3) (modifier : R) (q : quat) :
  norm q <> 0 ->
  let c := build_covariance_from_scaling_rotation scale modifier q in
  let c1 := build_covariance_from_scaling_rotation scale 1 q in
  let A := build_rotation q in
  let e0 := (modifier * v0 scale) * (modifier * v0 scale) in
  let e1 := (modifier * v1 scale) * (modifier * v1 scale) in
  let e2 := (modifier * v2 scale) * (modifier * v2 scale) in
  unpack c = matmul (matmul A (Mat3 e0 0 0 0 e1 0 0 0 e2)) (transpose A)
  /\ xx c = modifier * modifier * xx c1
  /\ xy c = modifier * modifier * xy c1
  /\ xz c = modifier * modifier * xz c1
  /\ yy c = modifier * modifier * yy c1
  /\ yz c = modifier * modifier * yz c1
  /\ zz c = modifier * modifier * zz c1.
Proof.
  intros _. cbv zeta.
  unfold build_covariance_from_scaling_rotation, build_scaling_rotation.
  generalize (build_rotation q) as A.
  intros [a00 a01 a02 a10 a11 a12 a20 a21 a22].
  destruct scale as [s0 s1 s2].
  cbv [unpack strip_symmetric strip_lowerdiag matmul transpose diag vscale
       m00 m01 m02 m10 m11 m12 m20 m21 m22 xx xy xz yy yz zz v0 v1 v2].
  split; [f_equal; ring |].
  repeat split; ring.
Qed.

Lemma covariance_modifier_quadratic_witness :
  norm (Quat 0 0 2 0) <> 0
  /\ xx (build_covariance_from_scaling_rotation (Vec3 1 2 3) 3 (Quat 0 0 2 0))
     = 3 * 3
       * xx (build_covariance_from_scaling_rotation (Vec3 1 2 3) 1
               (Quat 0 0 2 0)).
Proof.
  split; [exact norm_2000 |].
  exact (proj1 (proj2 (covariance_modifier_quadratic (Vec3 1 2 3) 3
                         (Quat 0 0 2 0) norm_2000))).
Defined.

(** X3: for a quaternion of nonzero norm the trace of the covariance is the
    sum of the squared scales and its determinant the square of their
    product: the rotation changes neither. *)
Theorem covariance_trace_det (scale : vec3) (modifier : R) (q : quat) :
  norm q <> 0 ->
  let c := build_covariance_from_scaling_rotation scale modifier q in
  let d := vscale modifier scale in
  xx c + yy c + zz c = v0 d * v0 d + v1 d * v1 d + v2 d * v2 d
  /\ det (unpack c) = (v0 d * v1 d * v2 d) * (v0 d * v1 d * v2 d).
Proof.
  intros Hn c d.
  destruct (rotation_of_nonzero q Hn) as [[_ Ho] Hd].
  unfold c. unfold build_covariance_from_scaling_rotation.
  cbv zeta. split.
  - unfold build_scaling_rotation. fold d.
    revert Ho. generalize (build_rotation q) as A. intros A Ho.
    destruct A as [a00 a01 a02 a10 a11 a12 a20 a21 a22].
    destruct d as [d0 d1 d2].
    cbv [matmul transpose identity3 strip_symmetric strip_lowerdiag diag
         m00 m01 m02 m10 m11 m12 m20 m21 m22 xx xy xz yy yz zz v0 v1 v2] in *.
    injection Ho as H00 _ _ _ H11 _ _ _ H22.
    transitivity (d0 * d0 * (a00 * a00 + a10 * a10 + a20 * a20)
                  + d1 * d1 * (a01 * a01 + a11 * a11 + a21 * a21)
                  + d2 * d2 * (a02 * a02 + a12 * a12 + a22 * a22));
      [ring |].
    rewrite H00, H11, H22. ring.
  - rewrite gram_symmetric, det_gram. unfold build_scaling_rotation.
    fold d. rewrite det_matmul_diag, Hd. ring.
Qed.

Lemma covariance_trace_det_witness :
  norm (Quat 0 0 2 0) <> 0
  /\ det (unpack (build_covariance_from_scaling_rotation
                    (Vec3 1 2 3) 1 (Quat 0 0 2 0)))
     = (1 * 1 * (1 * 2) * (1 * 3)) * (1 * 1 * (1 * 2) * (1 * 3)).
Proof.
  split; [exact norm_2000 |].
  exact (proj2 (covariance_trace_det (Vec3 1 2 3) 1 (Quat 0 0 2 0) norm_2000)).
Defined.

End KernelExtras.

(** ** Spherical harmonics *)

Section HarmonicsExtras.
Import Py Kernels SphericalHarmonics.

Lemma degree_cases (deg : Z) :
  (0 <= deg <= 4)%Z ->
  deg = 0%Z \/ deg = 1%Z \/ deg = 2%Z \/ deg = 3%Z \/ deg = 4%Z.
Proof. lia. Qed.

Lemma assert_enough (n : nat) (c : Z) :
  (c <= Z.of_nat n)%Z -> py_assert (Z.of_nat n >=? c)%Z = Ok tt.
Proof.
  intros H. unfold py_assert.
  replace (Z.of_nat n >=? c)%Z with true; [reflexivity |].
  symmetry. apply Z.geb_le. exact H.
Qed.

Lemma eval_sh_0 (sh : list R) (dirs : vec3) :
  (1 <= length sh)%nat ->
  eval_sh 0 sh dirs = Ok (C0 * nth 0 sh 0).
Proof.
  intros H. unfold eval_sh. cbn [Z.leb Z.geb Z.compare andb py_assert bind].
  rewrite assert_enough by (cbn; lia). reflexivity.
Qed.

(** X4: with degree 0 the value does not depend on the direction: it is
    [SH2RGB] of the first coefficient minus 0.5, so that the coefficient
    [RGB2SH c] evaluates to [c - 0.5]. *)
Theorem eval_sh_degree0 (sh : list R) (c : R) (dirs : vec3) :
  (1 <= length sh)%nat ->
  eval_sh 0 sh dirs = Ok (SH2RGB (nth 0 sh 0) - 0.5)
  /\ (nth 0 sh 0 = RGB2SH c -> eval_sh 0 sh dirs = Ok (c - 0.5)).
Proof.
  intros H. rewrite (eval_sh_0 sh dirs H). split.
  - apply f_equal. unfold SH2RGB. lra.
  - intros ->. apply f_equal. unfold RGB2SH. field. apply C0_nonzero.
Qed.

Lemma eval_sh_degree0_witness :
  eval_sh 0 [RGB2SH 0.75] (Vec3 0 0 1) = Ok (0.75 - 0.5).
Proof.
  apply (eval_sh_degree0 [RGB2SH 0.75] 0.75 (Vec3 0 0 1));
    [cbn; lia | reflexivity].
Defined.

(** X5: [eval_sh] fails, on one of its assertions, exactly when the degree
    is outside 0..4 or there are fewer than [(deg + 1)^2] coefficients;
    otherwise it returns a value. *)
Theorem eval_sh_assertions (deg : Z) (sh : list R) (dirs : vec3) :
  (eval_sh deg sh dirs = Err AssertionError <->
   (deg < 0 \/ 4 < deg \/ Z.of_nat (length sh) < (deg + 1) ^ 2)%Z)
  /\ (eval_sh deg sh dirs <> Err AssertionError ->
      exists r, eval_sh deg sh dirs = Ok r).
Proof.
  unfold eval_sh.
  destruct ((deg <=? 4)%Z && (deg >=? 0)%Z) eqn:Ed; cbn [py_assert bind].
  - apply andb_true_iff in Ed. destruct Ed as [E4 E0].
    apply Z.leb_le in E4. apply Z.geb_le in E0.
    destruct (Z.of_nat (length sh) >=? (deg + 1) ^ 2)%Z eqn:El; cbn [bind].
    + apply Z.geb_le in El. cbn [py_assert bind].
      repeat match goal with
             | |- context [if (?d >? ?k)%Z then _ else _] =>
                 destruct (d >? k)%Z
             end;
        (split; [split; [discriminate | lia] | intros _; eexists; reflexivity]).
    + assert (Hl : (Z.of_nat (length sh) < (deg + 1) ^ 2)%Z).
      { destruct (Z.geb_spec (Z.of_nat (length sh)) ((deg + 1) ^ 2)%Z);
          [discriminate | lia]. }
      cbn [py_assert bind].
      split; [split; [intros _; tauto | reflexivity] |
              intros H; exfalso; now apply H].
  - assert (Hd : (deg < 0 \/ 4 < deg)%Z).
    { apply andb_false_iff in Ed. destruct Ed as [E | E].
      - apply Z.leb_gt in E. lia.
      - destruct (Z.geb_spec deg 0); [discriminate | lia]. }
    split; [split; [intros _; tauto | reflexivity] |
            intros H; exfalso; now apply H].
Qed.

Ltac run_asserts :=
  unfold eval_sh;
  cbn [Z.leb Z.geb Z.compare Pos.compare Pos.compare_cont andb py_assert bind];
  rewrite ?assert_enough by (cbn; lia);
  cbn [bind Z.gtb Z.compare Pos.compare Pos.compare_cont].

(** X6: [eval_sh] reads the first [(deg + 1)^2] coefficients only. *)
Theorem eval_sh_reads_prefix (deg : Z) (sh sh' : list R) (dirs : vec3) :
  ((deg + 1) ^ 2 <= Z.of_nat (length sh))%Z ->
  ((deg + 1) ^ 2 <= Z.of_nat (length sh'))%Z ->
  (forall i, (Z.of_nat i < (deg + 1) ^ 2)%Z -> nth i sh 0 = nth i sh' 0) ->
  eval_sh deg sh dirs = eval_sh deg sh' dirs.
Proof.
  intros Hl Hl' H.
  destruct ((deg <=? 4)%Z && (deg >=? 0)%Z) eqn:Ed.
  - apply andb_true_iff in Ed. destruct Ed as [E4 E0].
    apply Z.leb_le in E4. apply Z.geb_le in E0.
    destruct (degree_cases deg) as [-> | [-> | [-> | [-> | ->]]]]; [lia | ..];
      run_asserts; rewrite !H by (cbn; lia); reflexivity.
  - unfold eval_sh. rewrite Ed. reflexivity.
Qed.

Lemma eval_sh_reads_prefix_witness :
  eval_sh 0 [2; 5; 7] (Vec3 0 0 1) = eval_sh 0 [2] (Vec3 0 0 1).
Proof.
  apply (eval_sh_reads_prefix 0 [2; 5; 7] [2] (Vec3 0 0 1)).
  - cbn. lia.
  - cbn. lia.
  - intros i Hi. destruct i; [reflexivity | cbn in Hi; lia].
Defined.

(** X7: [eval_sh] is linear in the coefficients: the value for
    [a * sh1 + sh2] is [a] times the value for [sh1] plus the value for
    [sh2]. *)
Theorem eval_sh_linear (deg : Z) (a : R) (sh1 sh2 sh3 : list R)
    (dirs : vec3) (r1 r2 : R) :
  length sh3 = length sh1 ->
  (forall i, nth i sh3 0 = a * nth i sh1 0 + nth i sh2 0) ->
  eval_sh deg sh1 dirs = Ok r1 ->
  eval_sh deg sh2 dirs = Ok r2 ->
  eval_sh deg sh3 dirs = Ok (a * r1 + r2).
Proof.
  intros Hlen H. unfold eval_sh. rewrite Hlen.
  destruct ((deg <=? 4)%Z && (deg >=? 0)%Z); cbn [py_assert bind];
    [| discriminate].
  destruct (Z.of_nat (length sh1) >=? (deg + 1) ^ 2)%Z; cbn [py_assert bind];
    [| discriminate].
  destruct (Z.of_nat (length sh2) >=? (deg + 1) ^ 2)%Z; cbn [py_assert bind];
    [| discriminate].
  repeat match goal with
         | |- context [if (?d >? ?k)%Z then _ else _] => destruct (d >? k)%Z
         end;
    intros H1 H2; injection H1 as <-; injection H2 as <-;
    rewrite !H; apply f_equal; unfold C2, C3, C4; cbn [nth]; field.
Qed.

Lemma eval_sh_linear_witness :
  eval_sh 0 [2 * 1 + 3] (Vec3 0 0 1) = Ok (2 * (C0 * 1) + C0 * 3).
Proof.
  apply (eval_sh_linear 0 2 [1] [3] [2 * 1 + 3] (Vec3 0 0 1)).
  - reflexivity.
  - intros [| [| i]]; cbn [nth]; ring.
  - apply eval_sh_0. cbn. lia.
  - apply eval_sh_0. cbn. lia.
Defined.

Lemma nth_app_zeros (l : list R) (k i : nat) :
  nth i (l ++ repeat 0 k) 0 = nth i l 0.
Proof.
  destruct (Nat.lt_ge_cases i (length l)) as [Hi | Hi].
  - now apply app_nth1.
  - rewrite app_nth2 by assumption.
    rewrite (nth_overflow l) by assumption.
    apply nth_repeat.
Qed.

Ltac explode sh :=
  destruct sh as [| ? sh];
  [ try (cbn [length] in *; lia)
  | try (cbn [length] in *; lia); try explode sh ].

(** X8: coefficients padded with zeros up to a higher degree evaluate to
    the same value under that higher degree. *)
Theorem eval_sh_zero_padding (deg deg' : Z) (sh : list R) (k : nat)
    (dirs : vec3) :
  (0 <= deg <= deg')%Z -> (deg' <= 4)%Z ->
  Z.of_nat (length sh) = ((deg + 1) ^ 2)%Z ->
  ((deg' + 1) ^ 2 <= Z.of_nat (length sh + k))%Z ->
  eval_sh deg' (sh ++ repeat 0 k) dirs = eval_sh deg sh dirs.
Proof.
  intros Hd Hd' Hl Hk.
  assert (Hk' : ((deg' + 1) ^ 2
                <= Z.of_nat (length (sh ++ repeat 0%R k)))%Z)
    by now rewrite length_app, repeat_length.
  destruct (degree_cases deg) as [-> | [-> | [-> | [-> | ->]]]]; [lia | ..];
    (destruct (degree_cases deg') as [-> | [-> | [-> | [-> | ->]]]];
     [lia | ..]); try lia.
  all: unfold eval_sh;
    cbn [Z.leb Z.geb Z.compare Pos.compare Pos.compare_cont andb py_assert bind];
    rewrite (assert_enough _ _ Hk'), (assert_enough (length sh)) by lia;
    cbn [bind Z.gtb Z.compare Pos.compare Pos.compare_cont];
    rewrite ?nth_app_zeros.
  all: explode sh.
  all: unfold C2, C3, C4; cbn [nth]; apply f_equal; field.
Qed.

Lemma eval_sh_zero_padding_witness :
  eval_sh 3 ([2] ++ repeat 0 15) (Vec3 0 0 1) = eval_sh 0 [2] (Vec3 0 0 1).
Proof.
  apply (eval_sh_zero_padding 0 3 [2] 15 (Vec3 0 0 1)); cbn; lia.
Defined.

End HarmonicsExtras.

(** ** The projection matrix and the decoded fields *)

Section ProjectionExtras.
Import Camera.

Lemma tan_half_fov (t : R) : tan (2 * atan t / 2) = t.
Proof. replace (2 * atan t / 2) with (atan t) by field. apply tan_atan. Qed.

(** X9: for nonzero [fx] and [fy] the projection matrix of a camera has
    the entries [2 fx] and [2 fy] on its diagonal, the shifts
    [2 cx - 1] and [2 cy - 1] in its third row, and the fixed depth terms
    of the near and far planes 0.01 and 100: the detour through the
    angles of view cancels. *)
Theorem projection_matrix_entries (fx fy cx cy : R) (h w : Z) :
  fx <> 0 -> fy <> 0 ->
  projection_matrix (__init__ fx fy cx cy h w)
  = [[2 * fx; 0; 0; 0];
     [0; 2 * fy; 0; 0];
     [2 * cx - 1; 2 * cy - 1; 100.0 / (100.0 - 0.01); 1];
     [0; 0; - (100.0 * 0.01) / (100.0 - 0.01); 0]].
Proof.
  intros Hx Hy. unfold projection_matrix, getProjectionMatrix, __init__.
  cbn [znear zfar fovX fovY shiftX shiftY].
  rewrite !tan_half_fov.
  cbv [Tensor.transpose_rows map seq nth].
  replace 2.0 with 2 by lra. replace 1.0 with 1 by lra.
  repeat match goal with
         | |- cons _ _ = cons _ _ => apply f_equal2
         | |- nil = nil => reflexivity
         end;
    try reflexivity;
    try (field; repeat split; first [assumption | lra]).
Qed.

Lemma projection_matrix_entries_witness :
  0.5 <> 0
  /\ projection_matrix (__init__ 0.5 0.5 0.5 0.5 480 640)
     = [[2 * 0.5; 0; 0; 0];
        [0; 2 * 0.5; 0; 0];
        [2 * 0.5 - 1; 2 * 0.5 - 1; 100.0 / (100.0 - 0.01); 1];
        [0; 0; - (100.0 * 0.01) / (100.0 - 0.01); 0]].
Proof.
  assert (H : 0.5 <> 0) by lra.
  split; [exact H |].
  exact (projection_matrix_entries 0.5 0.5 0.5 0.5 480 640 H H).
Defined.

(** X10: for positive focal lengths the angles of view lie strictly
    between 0 and [PI], and the tangent of half the angle, which the
    projection matrix is built from, is the stored tangent. *)
Theorem camera_fov_bounds (fx fy cx cy : R) (h w : Z) :
  0 < fx -> 0 < fy ->
  let cam := __init__ fx fy cx cy h w in
  0 < fovX cam < PI /\ 0 < fovY cam < PI
  /\ tan (fovX cam / 2) = tanfovX cam
  /\ tan (fovY cam / 2) = tanfovY cam.
Proof.
  intros Hx Hy. cbv zeta. unfold __init__; cbn [fovX fovY tanfovX tanfovY].
  assert (Hp : forall f, 0 < f -> 0 < atan (1 / (2 * f)) < PI / 2).
  { intros f Hf. pose proof (atan_bound (1 / (2 * f))) as B.
    split; [| lra]. rewrite <- atan_0. apply atan_increasing.
    apply Rdiv_lt_0_compat; lra. }
  pose proof (Hp fx Hx) as Bx. pose proof (Hp fy Hy) as By.
  repeat split; try lra; apply tan_half_fov.
Qed.

Lemma camera_fov_bounds_witness :
  0 < 0.5 /\ tan (fovX (__init__ 0.5 0.5 0.5 0.5 480 640) / 2) = 1 / (2 * 0.5).
Proof.
  assert (H : 0 < 0.5) by lra.
  split; [exact H |].
  exact (proj1 (proj2 (proj2
           (camera_fov_bounds 0.5 0.5 0.5 0.5 480 640 H H)))).
Defined.

End ProjectionExtras.

Section DecodingExtras.
Import Py Tensor Kernels GaussianModel.

Lemma entries_map_tensor (f : R -> R) (t : tensor) :
  entries (map_tensor f t) = map f (entries t).
Proof.
  destruct t as [v | c rows | a b slabs]; cbn [entries map_tensor].
  - reflexivity.
  - now rewrite concat_map.
  - rewrite concat_map, !map_map. f_equal. apply map_ext. intros s.
    now rewrite concat_map.
Qed.

Lemma sigmoid_range (x : R) : 0 < sigmoid x < 1.
Proof.
  unfold sigmoid. pose proof (exp_pos (- x)) as H.
  split.
  - apply Rdiv_lt_0_compat; lra.
  - apply (Rmult_lt_reg_r (1 + exp (- x))); [lra |].
    field_simplify; lra.
Qed.

Lemma softplus_pos (x : R) : 0 < softplus x.
Proof.
  unfold softplus. destruct (Rlt_dec 20 x); [lra |].
  rewrite <- ln_1. apply ln_increasing; [lra |].
  pose proof (exp_pos x). lra.
Qed.

(** X11: every decoded opacity lies between 0 and 1. *)
Theorem get_opacity_range (self : t) :
  Forall (fun o => 0 <= o <= 1) (entries (get_opacity self)).
Proof.
  unfold get_opacity. rewrite entries_map_tensor.
  apply Forall_map, Forall_forall. intros x _.
  pose proof (sigmoid_range x). lra.
Qed.

(** X12: no decoded scale is negative under [exp], nor under [softplus]
    when the factor is not negative, and under [sigmoid] every decoded
    scale lies between the two bounds when the lower bound is not the
    larger. *)
Theorem get_scaling_range (self : t) :
  match scaling_activation_type self with
  | Exp => Forall (fun s => 0 <= s) (entries (get_scaling self))
  | Softplus multi =>
      0 <= multi -> Forall (fun s => 0 <= s) (entries (get_scaling self))
  | Sigmoid lo hi =>
      lo <= hi -> Forall (fun s => lo <= s <= hi) (entries (get_scaling self))
  end.
Proof.
  unfold get_scaling. rewrite entries_map_tensor.
  destruct (scaling_activation_type self) as [| multi | lo hi];
    [| intros Hm | intros Hl];
    apply Forall_map, Forall_forall; intros x _; cbn [decode_scale].
  - left. apply exp_pos.
  - apply Rmult_le_pos; [left; apply softplus_pos | exact Hm].
  - pose proof (sigmoid_range x) as [H0 H1]. nra.
Qed.

Lemma get_scaling_range_witness :
  Forall (fun s => 0.001 <= s <= 0.3)
    (entries (get_scaling (Examples.unit_model (Sigmoid 0.001 0.3)))).
Proof.
  apply (get_scaling_range (Examples.unit_model (Sigmoid 0.001 0.3))). lra.
Defined.

Lemma sumsq_nonneg (row : list R) :
  0 <= fold_right (fun x acc => x * x + acc) 0 row.
Proof.
  induction row as [| x row IH]; cbn [fold_right]; [lra |].
  pose proof (Rle_0_sqr x) as H. unfold Rsqr in H. lra.
Qed.

Lemma sumsq_scale (d : R) (row : list R) :
  d <> 0 ->
  fold_right (fun x acc => x * x + acc) 0 (map (fun v => v / d) row)
  = fold_right (fun x acc => x * x + acc) 0 row / (d * d).
Proof.
  intros Hd. induction row as [| x row IH]; cbn [map fold_right].
  - field. exact Hd.
  - rewrite IH. field. exact Hd.
Qed.

Lemma l2_scale (d : R) (row : list R) :
  0 < d -> l2 (map (fun v => v / d) row) = l2 row / d.
Proof.
  intros Hd. unfold l2. rewrite sumsq_scale by lra.
  rewrite sqrt_div_alt by nra.
  rewrite sqrt_square by lra. reflexivity.
Qed.

Lemma clamp_pos (x : R) : 0 < Rmax x 1e-12.
Proof.
  apply Rlt_le_trans with 1e-12; [lra | apply Rmax_r].
Qed.

Lemma normalize_rows (c : nat) (rows : list (list R)) :
  exists rows',
    normalize (T2 c rows) = Ok (T2 c rows')
    /\ Forall2 (fun r r' =>
                  (exists k, 0 < k /\ r' = map (Rmult k) r)
                  /\ length r' = length r
                  /\ (1e-12 <= l2 r -> l2 r' = 1))
         rows rows'.
Proof.
  cbn [normalize]. eexists. split; [reflexivity |].
  induction rows as [| r rows IH]; cbn [map]; constructor; [| exact IH].
  pose proof (clamp_pos (l2 r)) as Hp.
  split; [| split].
  - exists (/ Rmax (l2 r) 1e-12). split; [now apply Rinv_0_lt_compat |].
    apply map_ext. intros v. unfold Rdiv. apply Rmult_comm.
  - apply length_map.
  - intros H. rewrite l2_scale by exact Hp.
    rewrite Rmax_left by exact H.
    apply Rinv_r. lra.
Qed.

(** X13: [get_rotation] fails, with [IndexError], exactly on a
    one-dimensional raw rotation, which is what a freshly constructed
    model holds.  On a two-dimensional one it returns, row by row, a
    positive multiple of the raw row, of the same length, and of norm 1
    when the norm of the raw row is at least [1e-12]. *)
Theorem get_rotation_rows (self : t) :
  (get_rotation self = Err IndexError <-> exists v, _rotation self = T1 v)
  /\ (forall c rows, _rotation self = T2 c rows ->
        exists rows',
          get_rotation self = Ok (T2 c rows')
          /\ Forall2 (fun r r' =>
                        (exists k, 0 < k /\ r' = map (Rmult k) r)
                        /\ length r' = length r
                        /\ (1e-12 <= l2 r -> l2 r' = 1))
               rows rows').
Proof.
  unfold get_rotation. split.
  - destruct (_rotation self) as [v | c rows | a b slabs]; cbn [normalize].
    + split; [intros _; now exists v | reflexivity].
    + split; [discriminate | intros [v Hv]; discriminate].
    + split; [discriminate | intros [v Hv]; discriminate].
  - intros c rows ->. apply normalize_rows.
Qed.

Lemma get_rotation_rows_witness :
  get_rotation (Examples.fresh0 Exp) = Err IndexError.
Proof.
  apply (proj1 (get_rotation_rows (Examples.fresh0 Exp))).
  now exists [].
Defined.

(** X14: the covariance of a model is the same whether the raw rotation
    or the normalised rotation of [get_rotation] is used, as long as no
    quaternion is zero. *)
Theorem covariance_of_normalised_rotation (self self' : t) (cols : nat)
    (rows : list (list R)) (rotation : tensor) (modifier : R) :
  _rotation self = T2 cols rows ->
  Forall (fun r => norm (Batch.quat_of_row r) <> 0) rows ->
  get_rotation self = Ok rotation ->
  _rotation self' = rotation ->
  _scaling self' = _scaling self ->
  scaling_activation_type self' = scaling_activation_type self ->
  get_covariance self' modifier = get_covariance self modifier.
Proof.
  intros Hr Hn Hg Hr' Hs Ha.
  destruct (normalize_rows cols rows) as (rows' & Hg' & Hf).
  unfold get_rotation in Hg. rewrite Hr, Hg' in Hg. injection Hg as <-.
  assert (Hf2 : Forall2 (fun r r' => norm (Batch.quat_of_row r) <> 0
                                     /\ Batch.rescaled r r') rows rows').
  { clear - Hf Hn. revert Hn.
    induction Hf as [| r r' l l' [(k & Hk & ->) _] _ IH]; intros Hn;
      [constructor |].
    inversion Hn as [| ? ? Hr0 Hl0]; subst.
    constructor; [| exact (IH Hl0)].
    split; [exact Hr0 |]. exists k. split; [lra | reflexivity]. }
  unfold get_covariance, get_scaling. rewrite Hs, Ha, Hr, Hr'.
  unfold Batch.build_covariance_from_scaling_rotation,
    Batch.build_scaling_rotation.
  now rewrite (batch_build_rotation_rescaled cols rows rows' Hf2).
Qed.

Lemma covariance_of_normalised_rotation_witness :
  exists rotation,
    get_rotation Examples.unit_model_doubled = Ok rotation
    /\ get_covariance
         {| sh_degree := 0;
            _xyz := _xyz Examples.unit_model_doubled;
            _features_dc := _features_dc Examples.unit_model_doubled;
            _features_rest := None;
            _scaling := _scaling Examples.unit_model_doubled;
            _rotation := rotation;
            _opacity := _opacity Examples.unit_model_doubled;
            scaling_activation_type := Exp |} 1
       = get_covariance Examples.unit_model_doubled 1.
Proof.
  eexists. split; [reflexivity |].
  eapply (covariance_of_normalised_rotation Examples.unit_model_doubled);
    try reflexivity.
  constructor; [| constructor].
  intros H.
  pose proof (norm_sqr (Batch.quat_of_row (map (Rmult 2) [1; 0; 0; 0]))) as Hs.
  rewrite H in Hs. cbn in Hs. lra.
Defined.

Lemma combine_map2 {A B C D : Type} (f : A -> C) (g : B -> D)
    (l1 : list A) (l2 : list B) :
  combine (map f l1) (map g l2)
  = map (fun p => (f (fst p), g (snd p))) (combine l1 l2).
Proof.
  revert l2. induction l1 as [| a l1 IH]; intros [| b l2]; cbn;
    try reflexivity. now rewrite IH.
Qed.

Lemma vec3_of_row_scaled (c : R) (r : list R) :
  Batch.vec3_of_row (map (Rmult c) r) = vscale c (Batch.vec3_of_row r).
Proof.
  unfold Batch.vec3_of_row, vscale; cbn [v0 v1 v2].
  now rewrite !nth_map_Rmult.
Qed.

Lemma kernel_covariance_psd (scale : vec3) (modifier : R) (q : quat) :
  positive_semidefinite
    (unpack (build_covariance_from_scaling_rotation scale modifier q)).
Proof.
  intros v. unfold build_covariance_from_scaling_rotation. cbv zeta.
  rewrite gram_symmetric, quadratic_form_gram.
  repeat apply Rplus_le_le_0_compat; apply Rle_0_sqr.
Qed.

(** X15: for [N] rows of three raw scales and [N] rows of four rotation
    entries, none of them of norm zero, [get_covariance] returns [N] rows
    of six values: row [n] is the packed covariance of the kernel for the
    decoded scale and the raw rotation of primitive [n], and describes a
    positive semi-definite matrix. *)
Theorem get_covariance_rows (self : t) (S Rt : list (list R)) (modifier : R) :
  _scaling self = T2 3 S ->
  _rotation self = T2 4 Rt ->
  length S = length Rt ->
  Forall (fun r => norm (Batch.quat_of_row r) <> 0) Rt ->
  let kernel := fun rs : list R * list R =>
    build_covariance_from_scaling_rotation
      (Batch.vec3_of_row
         (map (decode_scale (scaling_activation_type self)) (snd rs)))
      modifier (Batch.quat_of_row (fst rs)) in
  get_covariance self modifier
  = Ok (T2 6 (map (fun rs => Batch.row_of_sym6 (kernel rs)) (combine Rt S)))
  /\ length (combine Rt S) = length S
  /\ Forall (fun rs => positive_semidefinite (unpack (kernel rs)))
       (combine Rt S).
Proof.
  intros Hs Hr Hl _ kernel. split; [| split].
  - unfold get_covariance, get_scaling. rewrite Hs, Hr. cbn [map_tensor].
    unfold Batch.build_covariance_from_scaling_rotation,
      Batch.build_scaling_rotation, Batch.build_rotation, Batch.diagonals.
    cbn [map_tensor Nat.ltb Nat.leb bind]. unfold Batch.bmm.
    rewrite !length_map, <- Hl, Nat.eqb_refl. cbn [bind].
    unfold Batch.strip_symmetric. do 2 f_equal.
    rewrite combine_map2, !map_map.
    rewrite <- (map_id Rt) at 1.
    rewrite combine_map2, map_map.
    apply map_ext. intros [r s]. cbn [fst snd]. unfold kernel.
    cbn [fst snd]. unfold build_covariance_from_scaling_rotation,
      build_scaling_rotation.
    now rewrite vec3_of_row_scaled.
  - rewrite length_combine, Hl. apply Nat.min_id.
  - apply Forall_forall. intros rs _. apply kernel_covariance_psd.
Qed.

Lemma get_covariance_rows_witness :
  exists rows,
    get_covariance (Examples.unit_model Exp) 1 = Ok (T2 6 rows)
    /\ length rows = 1%nat.
Proof.
  destruct (get_covariance_rows (Examples.unit_model Exp)
              [[0; 0; 0]] [[1; 0; 0; 0]] 1)
    as (H & _ & _); try reflexivity.
  - constructor; [| constructor].
    change (Batch.quat_of_row [1; 0; 0; 0]) with (Quat 1 0 0 0).
    rewrite norm_identity_quat. lra.
  - eexists. split; [exact H | reflexivity].
Defined.

(** X16: [get_covariance] fails with [IndexError] when the raw rotation
    is one-dimensional, as in a freshly constructed model, or is
    two-dimensional with fewer than four columns, whatever the scales. *)
Theorem get_covariance_needs_quaternions (self : t) (modifier : R) :
  match _rotation self with
  | T1 _ => True
  | T2 c _ => (c < 4)%nat
  | T3 _ _ _ => False
  end ->
  get_covariance self modifier = Err IndexError.
Proof.
  intros H. unfold get_covariance,
    Batch.build_covariance_from_scaling_rotation,
    Batch.build_scaling_rotation, Batch.build_rotation.
  destruct (_rotation self) as [v | c rows | a b slabs];
    [reflexivity | | contradiction].
  apply Nat.ltb_lt in H. now rewrite H.
Qed.

Lemma get_covariance_needs_quaternions_witness :
  get_covariance (Examples.fresh0 Exp) 1 = Err IndexError.
Proof.
  apply (get_covariance_needs_quaternions (Examples.fresh0 Exp) 1). exact I.
Defined.

(** X17: [set_data] fails only for a model of positive degree whose
    [features] are not three-dimensional, and then with [IndexError]; in
    every other case it succeeds. *)
Theorem set_data_failure (self : t)
    (xyz features scaling rotation opacity : tensor) :
  (set_data self xyz features scaling rotation opacity = Err IndexError <->
   (0 < sh_degree self)%Z /\ forall a b slabs, features <> T3 a b slabs)
  /\ (set_data self xyz features scaling rotation opacity <> Err IndexError ->
      exists m, set_data self xyz features scaling rotation opacity = Ok m).
Proof.
  unfold set_data.
  destruct (sh_degree self >? 0)%Z eqn:Ed.
  - apply Z.gtb_lt in Ed.
    destruct features as [v | c rows | a b slabs]; cbn [slice_from1 bind].
    + split; [split; [intros _; split; [lia | discriminate] | reflexivity] |
              intros H; now contradiction H].
    + split; [split; [intros _; split; [lia | discriminate] | reflexivity] |
              intros H; now contradiction H].
    + split; [split; [discriminate |] | intros _; now eexists].
      intros [_ H]. now contradiction (H a b slabs).
  - cbn [bind].
    assert (Hn : ~ (0 < sh_degree self)%Z).
    { destruct (Z.gtb_spec (sh_degree self) 0); [discriminate | lia]. }
    split; [split; [discriminate | tauto] | intros _; now eexists].
Qed.

End DecodingExtras.

(** ** Failures and shapes of the scene file *)

Section FileExtras.
Import Py Tensor GaussianModel Examples.

(** X18: the colour byte computed for a DC coefficient is an integer
    between 0 and 255. *)
Theorem rgb_of_is_byte (x : R) :
  exists n : Z, rgb_of x = IZR n /\ (0 <= n <= 255)%Z.
Proof.
  unfold rgb_of, to_uint8.
  set (y := clip (Kernels.SH2RGB x * 255.0) 0.0 255.0).
  assert (Hy : 0 <= y <= 255).
  { unfold y, clip. split.
    - apply Rmin_glb; [| lra].
      apply Rle_trans with 0.0; [lra | apply Rmax_r].
    - apply Rle_trans with 255.0; [apply Rmin_r | lra]. }
  exists (Zfloor y). split; [reflexivity |]. split.
  - apply Zfloor_lub. cbn. lra.
  - apply le_IZR. pose proof (Zfloor_bound y). lra.
Qed.

(** X19: the viewer save of a model of degree above 3 fails on the
    assertion of [construct_dtypes]. *)
Theorem viewer_save_rejects_degree_above_3 (self : t) (a b : nat)
    (D : list (list (list R))) :
  (3 < sh_degree self)%Z ->
  _features_dc self = T3 a b D ->
  save_ply self false true = Err AssertionError.
Proof.
  intros Hd HD. unfold save_ply, construct_dtypes. rewrite HD.
  replace (sh_degree self >? 0)%Z with true by (symmetry; apply Z.gtb_lt; lia).
  replace (sh_degree self <=? 3)%Z with false
    by (symmetry; apply Z.leb_gt; lia).
  reflexivity.
Qed.

Lemma viewer_save_rejects_degree_above_3_witness :
  save_ply
    {| sh_degree := 4; _xyz := T2 3 []; _features_dc := T3 1 3 [];
       _features_rest := Some (T3 24 3 []); _scaling := T2 3 [];
       _rotation := T2 4 []; _opacity := T2 1 [];
       scaling_activation_type := Exp |} false true
  = Err AssertionError.
Proof.
  eapply viewer_save_rejects_degree_above_3; [cbn; lia | reflexivity].
Defined.

(** X20: the half precision save fails with [IndexError] whenever the DC
    field is not three-dimensional; this is the case of the degree-0
    models that the full precision save accepts. *)
Theorem half_precision_save_needs_3d_dc (self : t) (viewer : bool) :
  (forall a b D, _features_dc self <> T3 a b D) ->
  save_ply self true viewer = Err IndexError.
Proof.
  intros H. unfold save_ply, construct_dtypes. cbn [negb].
  destruct (_features_dc self) as [v | c rows | a b D] eqn:E.
  - destruct (sh_degree self >? 0)%Z; reflexivity.
  - destruct (sh_degree self >? 0)%Z; reflexivity.
  - now contradiction (H a b D).
Qed.

Lemma half_precision_save_needs_3d_dc_witness :
  save_ply (unit_model Exp) true false = Err IndexError.
Proof.
  apply half_precision_save_needs_3d_dc. intros a b D. discriminate.
Defined.

Lemma field_absent (el : PlyElement) (name : string) :
  ~ In name (names el) -> field el name = Err ValueError.
Proof.
  intros H. unfold field.
  destruct (index_of name (names el)) as [i |] eqn:E; [| reflexivity].
  contradiction H. now apply (index_of_Some_In _ _ i).
Qed.

(** X21: [load_ply] fails with [ValueError] when one of the properties x,
    y, z, opacity, f_dc_0, f_dc_1, f_dc_2 is missing from the file. *)
Theorem load_ply_missing_property (self : t) (el : PlyElement) (name : string) :
  In name ["x"; "y"; "z"; "opacity"; "f_dc_0"; "f_dc_1"; "f_dc_2"]%string ->
  ~ In name (names el) ->
  load_ply self el = Err ValueError.
Proof.
  intros Hin Habs. apply field_absent in Habs. unfold load_ply.
  destruct (field el "x") as [x | e] eqn:Ex;
    [| apply field_error in Ex; now subst].
  destruct (field el "y") as [y | e] eqn:Ey;
    [| apply field_error in Ey; now subst].
  destruct (field el "z") as [z | e] eqn:Ez;
    [| apply field_error in Ez; now subst].
  destruct (field el "opacity") as [o | e] eqn:Eo;
    [| apply field_error in Eo; now subst].
  destruct (field el "f_dc_0") as [d0 | e] eqn:E0;
    [| apply field_error in E0; now subst].
  destruct (field el "f_dc_1") as [d1 | e] eqn:E1;
    [| apply field_error in E1; now subst].
  destruct (field el "f_dc_2") as [d2 | e] eqn:E2;
    [| apply field_error in E2; now subst].
  cbn in Hin.
  repeat (destruct Hin as [<- | Hin]; [congruence |]). contradiction.
Qed.

Lemma load_ply_missing_property_witness :
  load_ply degree1_empty {| properties := []; data := [] |} = Err ValueError.
Proof.
  apply (load_ply_missing_property _ _ "x"%string); cbn; tauto.
Defined.

(** X22: a file with the properties of the viewer variant loads without
    failing the count assertion only into a model of degree 3: for every
    other positive degree [load_ply] fails on its assertion.  So the
    viewer file written for a degree-1 model cannot be loaded back into a
    model of degree 1. *)
Theorem viewer_file_needs_degree_3 (self : t) (d : list (list R)) :
  (0 < sh_degree self)%Z -> sh_degree self <> 3%Z ->
  load_ply self {| properties := viewer_dtype; data := d |}
  = Err AssertionError.
Proof.
  intros Hpos Hne. unfold load_ply.
  set (el := {| properties := viewer_dtype; data := d |}).
  rewrite (field_at el "x" 0 eq_refl), (field_at el "y" 1 eq_refl),
    (field_at el "z" 2 eq_refl), (field_at el "opacity" 54 eq_refl),
    (field_at el "f_dc_0" 6 eq_refl), (field_at el "f_dc_1" 7 eq_refl),
    (field_at el "f_dc_2" 8 eq_refl).
  cbn [bind].
  replace (sh_degree self >? 0)%Z with true by (symmetry; apply Z.gtb_lt; lia).
  replace (sorted_names el "f_rest_")
    with (Ok (map fst (numbered "f_rest_" "f4" 45))) by reflexivity.
  cbn [bind].
  replace (Z.of_nat (length (map fst (numbered "f_rest_" "f4" 45))))
    with 45%Z by reflexivity.
  replace (45 =? 3 * (sh_degree self + 1) ^ 2 - 3)%Z with false;
    [reflexivity |].
  symmetry. apply Z.eqb_neq. nia.
Qed.

Lemma viewer_file_needs_degree_3_witness :
  exists file,
    save_ply degree1_ones false true = Ok file
    /\ load_ply degree1_empty file = Err AssertionError.
Proof.
  destruct (save_viewer1 degree1_ones
              [[0; 0; 0]] [[0]] [[0; 0; 0]] [[1; 0; 0; 0]]
              [[[0; 0; 0]]] [[[1; 1; 1]; [1; 1; 1]; [1; 1; 1]]])
    as [_ Hsave]; try reflexivity.
  cbv zeta in Hsave. eexists. split; [exact Hsave |].
  apply viewer_file_needs_degree_3; cbn; lia.
Defined.

(** X23: a degree-0 model that was loaded from a file written by the
    standard save cannot be saved again: its DC field came back with
    three dimensions and [save_ply] fails with [ValueError], with or
    without the viewer flag. *)
Theorem reloaded_degree0_cannot_be_saved (self fresh : t)
    (X D O S Rt : list (list R)) :
  sh_degree self = 0%Z ->
  _xyz self = T2 3 X -> _features_dc self = T2 3 D ->
  _opacity self = T2 1 O ->
  _scaling self = T2 3 S -> _rotation self = T2 4 Rt ->
  well_shaped (T2 3 X) -> well_shaped (T2 3 D) -> well_shaped (T2 1 O) ->
  well_shaped (T2 3 S) -> well_shaped (T2 4 Rt) ->
  length D = length X -> length O = length X ->
  length S = length X -> length Rt = length X ->
  sh_degree fresh = 0%Z ->
  exists file loaded,
    save_ply self false false = Ok file
    /\ load_ply fresh file = Ok loaded
    /\ save_ply loaded false false = Err ValueError
    /\ save_ply loaded false true = Err ValueError.
Proof.
  intros Hd HX HD HO HS HR WX WD WO WS WR LD LO LS LR Hf.
  destruct (roundtrip0 self fresh X D O S Rt) as (file & Hsave & Hload);
    try assumption.
  exists file. eexists. split; [exact Hsave | split; [exact Hload |]].
  split; reflexivity.
Qed.

Lemma reloaded_degree0_cannot_be_saved_witness :
  exists file loaded,
    save_ply (unit_model Exp) false false = Ok file
    /\ load_ply (fresh0 Exp) file = Ok loaded
    /\ save_ply loaded false false = Err ValueError.
Proof.
  destruct (reloaded_degree0_cannot_be_saved (unit_model Exp) (fresh0 Exp)
              [[0; 0; 0]] [[0; 0; 0]] [[0]] [[0; 0; 0]] [[1; 0; 0; 0]])
    as (file & loaded & Hs & Hl & He & _);
    try reflexivity; try (cbn [well_shaped]; repeat constructor).
  exists file, loaded. repeat split; assumption.
Defined.

Lemma field_length (el : PlyElement) (name : string) (col : list R) :
  field el name = Ok col -> length col = length (data el).
Proof.
  unfold field. destruct (index_of name (names el)); [| discriminate].
  intros H. injection H as <-. apply length_map.
Qed.

Lemma stack_axis1_shape (n : nat) (cols : list (list R)) :
  length (stack_axis1 n cols) = n
  /\ Forall (fun row => length row = length cols) (stack_axis1 n cols).
Proof.
  unfold stack_axis1. split; [now rewrite length_map, length_seq |].
  apply Forall_map, Forall_forall. intros i _. apply length_map.
Qed.

Lemma mapM_length {A B : Type} (f : A -> result B) (l : list A) (r : list B) :
  mapM f l = Ok r -> length r = length l.
Proof.
  revert r. induction l as [| a l IH]; intros r; cbn [mapM].
  - intros H. now injection H as <-.
  - destruct (f a); [| discriminate]. cbn [bind].
    destruct (mapM f l) as [bs |]; [| discriminate]. cbn [bind].
    intros H. injection H as <-. cbn. f_equal. now apply IH.
Qed.

Lemma read_columns_shape (el : PlyElement) (n : nat) (l : list string)
    (t : tensor) :
  read_columns el n l = Ok t ->
  exists rows, t = T2 (length l) rows /\ length rows = n
               /\ Forall (fun row => length row = length l) rows.
Proof.
  unfold read_columns. destruct (mapM (field el) l) as [cols |] eqn:E;
    [| discriminate].
  cbn [bind]. intros H. injection H as <-.
  destruct (stack_axis1_shape n cols) as [H1 H2].
  eexists. split; [reflexivity | split; [exact H1 |]].
  now rewrite <- (mapM_length _ _ _ E).
Qed.

(** X24: what [load_ply] returns has one row per row of the file in every
    field: position [N x 3], opacity [N x 1], DC colour [N x 1 x 3],
    scale and rotation with [N] rows and, for a positive degree, rest
    coefficients [N x ((d+1)^2 - 1) x 3]; every field is rectangular. *)
Theorem load_ply_shapes (self : t) (el : PlyElement) (loaded : t) :
  load_ply self el = Ok loaded ->
  let n := length (data el) in
  shape (_xyz loaded) = [n; 3]%nat
  /\ shape (_opacity loaded) = [n; 1]%nat
  /\ shape (_features_dc loaded) = [n; 1; 3]%nat
  /\ size0 (_scaling loaded) = n
  /\ size0 (_rotation loaded) = n
  /\ ((0 < sh_degree self)%Z ->
      exists rest, _features_rest loaded = Some rest
                   /\ shape rest
                      = [n; Z.to_nat ((sh_degree self + 1) ^ 2 - 1); 3]%nat
                   /\ well_shaped rest)
  /\ well_shaped (_xyz loaded) /\ well_shaped (_opacity loaded)
  /\ well_shaped (_features_dc loaded)
  /\ well_shaped (_scaling loaded) /\ well_shaped (_rotation loaded).
Proof.
  intros H n. unfold load_ply in H.
  destruct (field el "x") as [x |] eqn:Ex; [| discriminate].
  destruct (field el "y") as [y |]; [| discriminate].
  destruct (field el "z") as [z |]; [| discriminate].
  destruct (field el "opacity") as [o |] eqn:Eo; [| discriminate].
  destruct (field el "f_dc_0") as [d0 |]; [| discriminate].
  destruct (field el "f_dc_1") as [d1 |]; [| discriminate].
  destruct (field el "f_dc_2") as [d2 |]; [| discriminate].
  cbn [bind] in H.
  apply field_length in Ex, Eo. fold n in Ex, Eo. rewrite Ex in H.
  destruct (stack_axis1_shape n [x; y; z]) as [Hxn Hxw].
  assert (Hdc : well_shaped
            (T3 1 3 (map (transpose_rows 1)
                       (map (fun i => [[nth i d0 0]; [nth i d1 0];
                                       [nth i d2 0]]) (seq 0 n))))).
  { cbn [well_shaped]. apply Forall_map, Forall_map, Forall_forall.
    intros i _. cbn. repeat constructor. }
  assert (Hop : well_shaped (T2 1 (map (fun v : R => [v]) o))).
  { cbn [well_shaped]. apply Forall_map, Forall_forall. now intros v _. }
  destruct (sh_degree self >? 0)%Z eqn:Ed.
  - destruct (sorted_names el "f_rest_") as [names |]; [| discriminate].
    cbn [bind] in H.
    destruct (py_assert _); [| discriminate]. cbn [bind] in H.
    destruct (read_columns el n names) as [extra |] eqn:Ee; [| discriminate].
    destruct (read_columns_shape _ _ _ _ Ee) as (erows & -> & Hen & _).
    cbn [bind] in H.
    destruct (sorted_names el "scale_") as [sn |]; [| discriminate].
    cbn [bind] in H.
    destruct (read_columns el n sn) as [scales |] eqn:Es; [| discriminate].
    cbn [bind] in H.
    destruct (sorted_names el "rot") as [rn |]; [| discriminate].
    cbn [bind] in H.
    destruct (read_columns el n rn) as [rots |] eqn:Er; [| discriminate].
    cbn [bind transpose12] in H.
    destruct (read_columns_shape _ _ _ _ Es) as (srows & -> & Hsn & Hsw).
    destruct (read_columns_shape _ _ _ _ Er) as (rrows & -> & Hrn & Hrw).
    injection H as <-.
    cbn [_xyz _opacity _features_dc _features_rest _scaling _rotation
         shape size0].
    rewrite !length_map, length_seq, Hxn, Eo, Hsn, Hrn.
    repeat split; try reflexivity; try assumption.
    intros _. eexists. split; [reflexivity | split].
    + cbn [shape]. now rewrite !length_map, Hen.
    + cbn [well_shaped]. apply Forall_map, Forall_map, Forall_forall.
      intros row _. unfold transpose_rows, chunks. split.
      * now rewrite length_map, length_seq.
      * apply Forall_map, Forall_forall. intros j _.
        now rewrite !length_map, length_seq.
  - cbn [bind] in H.
    destruct (sorted_names el "scale_") as [sn |]; [| discriminate].
    cbn [bind] in H.
    destruct (read_columns el n sn) as [scales |] eqn:Es; [| discriminate].
    cbn [bind] in H.
    destruct (sorted_names el "rot") as [rn |]; [| discriminate].
    cbn [bind] in H.
    destruct (read_columns el n rn) as [rots |] eqn:Er; [| discriminate].
    cbn [bind transpose12] in H.
    destruct (read_columns_shape _ _ _ _ Es) as (srows & -> & Hsn & Hsw).
    destruct (read_columns_shape _ _ _ _ Er) as (rrows & -> & Hrn & Hrw).
    injection H as <-.
    cbn [_xyz _opacity _features_dc _features_rest _scaling _rotation
         shape size0].
    rewrite !length_map, length_seq, Hxn, Eo, Hsn, Hrn.
    repeat split; try reflexivity; try assumption.
    intros Hp. destruct (Z.gtb_spec (sh_degree self) 0); [discriminate | lia].
Qed.

Lemma load_ply_shapes_witness :
  exists loaded,
    load_ply degree1_empty rest9_file = Ok loaded
    /\ shape (_xyz loaded) = [1; 3]%nat
    /\ shape (_features_dc loaded) = [1; 1; 3]%nat.
Proof.
  destruct load_rest9_file as (loaded & Hl & _).
  destruct (load_ply_shapes degree1_empty rest9_file loaded Hl)
    as (H1 & _ & H3 & _).
  exists loaded. repeat split; assumption.
Defined.

End FileExtras.

(** ** The half precision variant *)

Section HalfPrecisionExtras.
Import Py Tensor GaussianModel Examples.

Lemma bind_ok {A B : Type} (r : result A) (k : A -> result B) (v : B) :
  bind r k = Ok v -> exists a, r = Ok a /\ k a = Ok v.
Proof.
  destruct r as [a | e]; cbn [bind]; [| discriminate].
  intros H. now exists a.
Qed.

Lemma half_precision_dtype (self : t) (viewer : bool)
    (dtype : list (string * string)) :
  construct_dtypes self true viewer = Ok dtype ->
  exists rest, dtype = ("x", "f2")%string :: rest.
Proof.
  unfold construct_dtypes. cbn [negb]. intros H.
  apply bind_ok in H. destruct H as (a & _ & H).
  apply bind_ok in H. destruct H as (b & _ & H).
  cbv zeta in H.
  apply bind_ok in H. destruct H as (rest & _ & H).
  apply bind_ok in H. destruct H as (sc & _ & H).
  apply bind_ok in H. destruct H as (rt & _ & H).
  injection H as <-. eexists. reflexivity.
Qed.

Lemma assign_rows_properties (dtype : list (string * string))
    (attributes : tensor) (el : PlyElement) :
  assign_rows dtype attributes = Ok el -> properties el = dtype.
Proof.
  unfold assign_rows. destruct attributes as [v | c rows | a b slabs];
    try discriminate.
  destruct (_ || _); [| discriminate].
  intros H. now injection H as <-.
Qed.

(** X29: the half precision variant of [save_ply] never returns a file:
    whatever the model and the viewer flag, it fails, at the latest when
    plyfile is given the [f2] type of the first property. *)
Theorem half_precision_save_fails (self : t) (viewer : bool) :
  exists e, save_ply self true viewer = Err e.
Proof.
  destruct (save_ply self true viewer) as [file | e] eqn:E;
    [exfalso | now exists e].
  unfold save_ply in E. cbv zeta in E.
  apply bind_ok in E. destruct E as (f_dc & _ & E).
  apply bind_ok in E. destruct E as (dtype & Hdtype & E).
  apply bind_ok in E. destruct E as (f_rest & _ & E).
  apply bind_ok in E. destruct E as (f_rest' & _ & E).
  apply bind_ok in E. destruct E as (attributes & _ & E).
  apply bind_ok in E. destruct E as (el & Hel & E).
  apply assign_rows_properties in Hel.
  destruct (half_precision_dtype self viewer dtype Hdtype) as (rest & ->).
  unfold describe in E. rewrite Hel in E. discriminate E.
Qed.

End HalfPrecisionExtras.

(** ** Saving and loading a model of positive degree *)

Section RoundTripExtras.
Import Py Tensor GaussianModel Examples.

Ltac same_length :=
  repeat first [ assumption | reflexivity
               | apply length_hstack_n | rewrite length_map ].

Ltac concatenated n :=
  repeat (apply (concatenate_cons_n n); [same_length | same_length |]);
  reflexivity.

Lemma length_numbered (p ty : string) (n : nat) :
  length (numbered p ty n) = n.
Proof. unfold numbered. now rewrite length_map, length_seq. Qed.

Lemma describe_numbered (p : string) (n : nat) :
  forallb (fun q => existsb (String.eqb (snd q)) plyfile_types)
    (numbered p "f4" n) = true.
Proof.
  apply forallb_forall. intros q Hq. unfold numbered in Hq.
  apply in_map_iff in Hq. destruct Hq as (i & <- & _). reflexivity.
Qed.

(** plyfile accepts the properties of a standard, full precision file. *)
Lemma describe_standard (k : nat) (d : list (list R)) :
  describe {| properties := standard_dtype k; data := d |}
  = Ok {| properties := standard_dtype k; data := d |}.
Proof.
  unfold describe, standard_dtype. cbn [properties].
  rewrite !forallb_app, describe_numbered. reflexivity.
Qed.

(** The rows that the standard save writes for a model of positive
    degree. *)
Lemma save_standard_positive (self : t) (k : nat) (X O S Rt : list (list R))
    (D F : list (list (list R))) :
  (0 < sh_degree self)%Z ->
  _xyz self = T2 3 X -> _features_dc self = T3 1 3 D ->
  _features_rest self = Some (T3 k 3 F) ->
  _opacity self = T2 1 O ->
  _scaling self = T2 3 S -> _rotation self = T2 4 Rt ->
  length D = length X -> length F = length X -> length O = length X ->
  length S = length X -> length Rt = length X ->
  let dc := map (@concat R) (map (transpose_rows 3) D) in
  let rest := map (@concat R) (map (transpose_rows 3) F) in
  save_ply self false false =
  Ok {| properties := standard_dtype k;
        data :=
          hstack X (hstack (map (map rgb_of) dc) (hstack dc
            (hstack rest (hstack O
              (hstack (map (map (encode_scale (scaling_activation_type self))) S)
                 Rt))))) |}.
Proof.
  intros Hd HX HD HF HO HS HR LD LF LO LS LR dc rest.
  assert (Hpos : (sh_degree self >? 0)%Z = true) by (apply Z.gtb_lt; lia).
  assert (Hfl : flattened_rest self = Ok (Some (T2 (3 * k) rest))).
  { unfold flattened_rest, rest_tensor. rewrite Hpos, HF. reflexivity. }
  unfold save_ply, construct_dtypes.
  rewrite Hfl, Hpos, HX, HD, HO, HS, HR. unfold rest_tensor. rewrite HF.
  cbn -[concatenate_axis1 assign_rows describe encode_scale rgb_of numbered
        Nat.mul].
  fold dc.
  match goal with |- context [concatenate_axis1 ?l] =>
    assert (E : concatenate_axis1 l =
      Ok (T2 (3 + (3 * 1 + (3 * 1 + (3 * k + (1 + (3 + 4))))))
            (hstack X (hstack (map (map rgb_of) dc) (hstack dc
               (hstack rest (hstack O
                 (hstack
                    (map (map (encode_scale (scaling_activation_type self))) S)
                    Rt))))))))
      by (subst dc rest; concatenated (length X))
  end.
  rewrite E. cbn [bind assign_rows].
  match goal with |- context [(?a =? ?b)%nat] =>
    match a with
    | (3 + _)%nat => replace (a =? b)%nat with true
    end
  end.
  - rewrite Bool.orb_true_r. cbn [bind]. apply describe_standard.
  - symmetry. apply Nat.eqb_eq.
    cbn [length app].
    repeat (rewrite length_app || rewrite length_numbered || cbn [length]).
    lia.
Qed.

Lemma stack_slice (o w : nat) (rows : list (list R)) :
  stack_axis1 (length rows)
    (map (fun idx => map (fun row => nth idx row 0) rows) (seq o w))
  = map (slice o w) rows.
Proof. apply stack_columns. Qed.

Lemma dc_reloaded (d : list (list R)) :
  map (transpose_rows 1)
    (map (fun i => [[nth i (map (fun row => nth 6 row 0) d) 0];
                    [nth i (map (fun row => nth 7 row 0) d) 0];
                    [nth i (map (fun row => nth 8 row 0) d) 0]])
       (seq 0 (length d)))
  = map (fun row => [slice 6 3 row]) d.
Proof.
  rewrite map_map.
  rewrite <- (map_nth_seq (fun row => [slice 6 3 row]) []).
  apply map_ext. intros i. unfold transpose_rows. cbn.
  now rewrite !nth_column.
Qed.

Ltac load_positive k io :=
  let el := fresh "el" in
  match goal with
  | |- load_ply _ ?file = _ => set (el := file)
  end;
  unfold load_ply;
  rewrite (field_at el "x" 0 eq_refl), (field_at el "y" 1 eq_refl),
    (field_at el "z" 2 eq_refl), (field_at el "opacity" io eq_refl),
    (field_at el "f_dc_0" 6 eq_refl), (field_at el "f_dc_1" 7 eq_refl),
    (field_at el "f_dc_2" 8 eq_refl);
  cbn [bind];
  match goal with
  | H : sh_degree _ = _ |- _ => rewrite H
  end;
  cbn [Z.gtb Z.compare];
  replace (sorted_names el "f_rest_")
    with (Ok (map fst (numbered "f_rest_" "f4" (k * 3))))
    by (vm_compute; reflexivity);
  cbn [bind];
  match goal with
  | |- context [py_assert ?b] => replace (py_assert b) with (Ok tt)
                                   by reflexivity
  end;
  cbn [bind];
  replace (sorted_names el "scale_")
    with (Ok ["scale_0"; "scale_1"; "scale_2"]%string)
    by (vm_compute; reflexivity);
  replace (sorted_names el "rot")
    with (Ok ["rot_0"; "rot_1"; "rot_2"; "rot_3"]%string)
    by (vm_compute; reflexivity);
  unfold read_columns;
  rewrite (mapM_field el (map fst (numbered "f_rest_" "f4" (k * 3)))
             (seq 9 (k * 3)));
  [ cbn [bind];
    rewrite (mapM_field el ["scale_0"; "scale_1"; "scale_2"]%string
               (seq (S io) 3));
    [ cbn [bind];
      rewrite (mapM_field el ["rot_0"; "rot_1"; "rot_2"; "rot_3"]%string
                 (seq (4 + io) 4));
      [ cbn [bind transpose12 data el]; rewrite !length_map;
        rewrite !stack_slice, dc_reloaded;
        match goal with
        | |- context [stack_axis1 (length ?d) ?cols] =>
            change (stack_axis1 (length d) cols)
              with (stack_axis1 (length d)
                      (map (fun idx => map (fun row : list R => nth idx row 0) d)
                         (seq 0 3)))
        end;
        rewrite stack_slice, (map_map (fun row => nth io row 0));
        reflexivity
      | cbv [seq Nat.add]; repeat constructor ]
    | cbv [seq]; repeat constructor ]
  | cbv [numbered seq map fst Nat.mul Nat.add]; repeat constructor ].

Lemma load_standard_1 (fresh : t) (d : list (list R)) :
  sh_degree fresh = 1%Z ->
  load_ply fresh {| properties := standard_dtype 3; data := d |} =
  Ok {| sh_degree := 1;
        _xyz := T2 3 (map (slice 0 3) d);
        _features_dc := T3 1 3 (map (fun row => [slice 6 3 row]) d);
        _features_rest :=
          Some (T3 3 3 (map (transpose_rows 3)
                          (map (chunks 3 3) (map (slice 9 (3 * 3)) d))));
        _scaling := T2 3 (map (slice (10 + 3 * 3) 3) d);
        _rotation := T2 4 (map (slice (13 + 3 * 3) 4) d);
        _opacity := T2 1 (map (slice (9 + 3 * 3) 1) d);
        scaling_activation_type := scaling_activation_type fresh |}.
Proof. intros Hd. load_positive 3%nat 18%nat. Qed.

Lemma load_standard_2 (fresh : t) (d : list (list R)) :
  sh_degree fresh = 2%Z ->
  load_ply fresh {| properties := standard_dtype 8; data := d |} =
  Ok {| sh_degree := 2;
        _xyz := T2 3 (map (slice 0 3) d);
        _features_dc := T3 1 3 (map (fun row => [slice 6 3 row]) d);
        _features_rest :=
          Some (T3 8 3 (map (transpose_rows 8)
                          (map (chunks 3 8) (map (slice 9 (8 * 3)) d))));
        _scaling := T2 3 (map (slice (10 + 8 * 3) 3) d);
        _rotation := T2 4 (map (slice (13 + 8 * 3) 4) d);
        _opacity := T2 1 (map (slice (9 + 8 * 3) 1) d);
        scaling_activation_type := scaling_activation_type fresh |}.
Proof. intros Hd. load_positive 8%nat 33%nat. Qed.

Lemma load_standard_3 (fresh : t) (d : list (list R)) :
  sh_degree fresh = 3%Z ->
  load_ply fresh {| properties := standard_dtype 15; data := d |} =
  Ok {| sh_degree := 3;
        _xyz := T2 3 (map (slice 0 3) d);
        _features_dc := T3 1 3 (map (fun row => [slice 6 3 row]) d);
        _features_rest :=
          Some (T3 15 3 (map (transpose_rows 15)
                           (map (chunks 3 15) (map (slice 9 (15 * 3)) d))));
        _scaling := T2 3 (map (slice (10 + 15 * 3) 3) d);
        _rotation := T2 4 (map (slice (13 + 15 * 3) 4) d);
        _opacity := T2 1 (map (slice (9 + 15 * 3) 1) d);
        scaling_activation_type := scaling_activation_type fresh |}.
Proof. intros Hd. load_positive 15%nat 54%nat. Qed.

Lemma load_standard_4 (fresh : t) (d : list (list R)) :
  sh_degree fresh = 4%Z ->
  load_ply fresh {| properties := standard_dtype 24; data := d |} =
  Ok {| sh_degree := 4;
        _xyz := T2 3 (map (slice 0 3) d);
        _features_dc := T3 1 3 (map (fun row => [slice 6 3 row]) d);
        _features_rest :=
          Some (T3 24 3 (map (transpose_rows 24)
                           (map (chunks 3 24) (map (slice 9 (24 * 3)) d))));
        _scaling := T2 3 (map (slice (10 + 24 * 3) 3) d);
        _rotation := T2 4 (map (slice (13 + 24 * 3) 4) d);
        _opacity := T2 1 (map (slice (9 + 24 * 3) 1) d);
        scaling_activation_type := scaling_activation_type fresh |}.
Proof. intros Hd. load_positive 24%nat 81%nat. Qed.

(** Cutting the concatenation of [a] rows of [b] entries into [a] rows of
    [b] gives the rows back. *)
Lemma chunks_concat (b : nat) (rows : list (list R)) :
  Forall (fun r => length r = b) rows ->
  chunks (length rows) b (concat rows) = rows.
Proof.
  induction 1 as [| r rows Hr _ IH]; [reflexivity |].
  subst b. unfold chunks in *. cbn [length seq map concat Nat.mul].
  rewrite slice_app_l. f_equal.
  rewrite <- seq_shift, map_map. rewrite <- IH at 2.
  apply map_ext. intros c. cbn [Nat.mul]. apply slice_app_r.
Qed.

(** Transposing a rectangular slab twice gives it back. *)
Lemma transpose_rows_involutive (b : nat) (s : list (list R)) :
  Forall (fun r => length r = b) s ->
  transpose_rows (length s) (transpose_rows b s) = s.
Proof.
  intros H. unfold transpose_rows.
  transitivity (map (slice 0 b) s); [| now apply map_slice_full].
  rewrite <- (map_nth_seq (slice 0 b) []).
  apply map_ext. intros i. rewrite map_map. unfold slice.
  apply map_ext. intros j. apply nth_column.
Qed.

Lemma length_transpose_rows (b : nat) (s : list (list R)) :
  length (transpose_rows b s) = b.
Proof. unfold transpose_rows. now rewrite length_map, length_seq. Qed.

Lemma transpose_rows_width (b : nat) (s : list (list R)) :
  Forall (fun r => length r = length s) (transpose_rows b s).
Proof.
  unfold transpose_rows. apply Forall_map, Forall_forall. intros j _.
  now rewrite length_map.
Qed.

(** The layout of the rest coefficients in the file is undone by the
    reshape and the transposition of [load_ply]. *)
Lemma rest_layout_inverse (k : nat) (F : list (list (list R))) :
  Forall (fun s => length s = k /\ Forall (fun r => length r = 3%nat) s) F ->
  map (transpose_rows k)
    (map (chunks 3 k) (map (@concat R) (map (transpose_rows 3) F))) = F.
Proof.
  intros H. rewrite !map_map. rewrite <- (map_id F) at 2.
  apply map_eq_Forall. revert H. apply Forall_impl. intros s [Hs Hr].
  pose proof (chunks_concat k (transpose_rows 3 s)) as Hc.
  rewrite length_transpose_rows in Hc. rewrite Hc.
  - rewrite <- Hs. now apply transpose_rows_involutive.
  - rewrite <- Hs. apply transpose_rows_width.
Qed.

Lemma dc_layout_inverse (D : list (list (list R))) :
  Forall (fun s => length s = 1%nat /\ Forall (fun r => length r = 3%nat) s) D ->
  map (fun r => [r]) (map (@concat R) (map (transpose_rows 3) D)) = D.
Proof.
  intros H. rewrite !map_map. rewrite <- (map_id D) at 2.
  apply map_eq_Forall. revert H. apply Forall_impl. intros s [Hs Hr].
  destruct s as [| r [| r' s]]; try discriminate.
  inversion Hr as [| ? ? Hl _]; subst.
  destruct r as [| a [| b [| c [| e r]]]]; try discriminate.
  reflexivity.
Qed.

(** The blocks of the rows that the standard save writes for a model of
    positive degree. *)
Lemma standard_rows_blocks (k : nat) (X C Dc Rs O S Rt : list (list R)) :
  Forall (fun r => length r = 3%nat) X ->
  Forall (fun r => length r = 3%nat) C ->
  Forall (fun r => length r = 3%nat) Dc ->
  Forall (fun r => length r = (3 * k)%nat) Rs ->
  Forall (fun r => length r = 1%nat) O ->
  Forall (fun r => length r = 3%nat) S ->
  Forall (fun r => length r = 4%nat) Rt ->
  length C = length X -> length Dc = length X -> length Rs = length X ->
  length O = length X -> length S = length X -> length Rt = length X ->
  let d := hstack X (hstack C (hstack Dc (hstack Rs (hstack O (hstack S Rt)))))
  in
  map (slice 0 3) d = X
  /\ map (slice 6 3) d = Dc
  /\ map (slice 9 (k * 3)) d = Rs
  /\ map (slice (9 + k * 3) 1) d = O
  /\ map (slice (10 + k * 3) 3) d = S
  /\ map (slice (13 + k * 3) 4) d = Rt.
Proof.
  intros WX WC WD WF WO WS WR LC LD LF LO LS LR d. subst d.
  assert (L6 : length (hstack S Rt) = length X) by same_length.
  assert (L5 : length (hstack O (hstack S Rt)) = length X) by same_length.
  assert (L4 : length (hstack Rs (hstack O (hstack S Rt))) = length X)
    by same_length.
  assert (L3 : length (hstack Dc (hstack Rs (hstack O (hstack S Rt))))
               = length X) by same_length.
  assert (L2 : length (hstack C (hstack Dc (hstack Rs (hstack O (hstack S Rt)))))
               = length X) by same_length.
  repeat split.
  - apply map_slice_hstack_l; congruence.
  - change 6%nat with (3 + (3 + 0))%nat.
    rewrite (map_slice_hstack_r 3), (map_slice_hstack_r 3) by congruence.
    apply map_slice_hstack_l; congruence.
  - change 9%nat with (3 + (3 + (3 + 0)))%nat.
    rewrite (map_slice_hstack_r 3), (map_slice_hstack_r 3),
      (map_slice_hstack_r 3) by congruence.
    replace (k * 3)%nat with (3 * k)%nat by lia.
    apply map_slice_hstack_l; congruence.
  - replace (9 + k * 3)%nat with (3 + (3 + (3 + (3 * k + 0))))%nat by lia.
    rewrite (map_slice_hstack_r 3), (map_slice_hstack_r 3),
      (map_slice_hstack_r 3), (map_slice_hstack_r (3 * k)) by congruence.
    apply map_slice_hstack_l; congruence.
  - replace (10 + k * 3)%nat
      with (3 + (3 + (3 + (3 * k + (1 + 0)))))%nat by lia.
    rewrite (map_slice_hstack_r 3), (map_slice_hstack_r 3),
      (map_slice_hstack_r 3), (map_slice_hstack_r (3 * k)),
      (map_slice_hstack_r 1) by congruence.
    apply map_slice_hstack_l; congruence.
  - replace (13 + k * 3)%nat
      with (3 + (3 + (3 + (3 * k + (1 + (3 + 0))))))%nat by lia.
    rewrite (map_slice_hstack_r 3), (map_slice_hstack_r 3),
      (map_slice_hstack_r 3), (map_slice_hstack_r (3 * k)),
      (map_slice_hstack_r 1), (map_slice_hstack_r 3) by congruence.
    now apply map_slice_full.
Qed.

(** X26: for a well-shaped model of degree 1 to 4 whose rest block has the
    number of coefficients of its degree and whose decoded scales are
    positive, the standard save followed by a load into a model of the
    same degree gives back the position, both colour blocks, the opacity
    and the rotation exactly, and as raw scale the logarithm
    [ln (decode x)] of the decoded scale, which under the [exp] activation
    is the raw scale itself. *)
Theorem save_load_positive_degree (self fresh : t) (k : nat)
    (X O S Rt : list (list R)) (D F : list (list (list R))) :
  (1 <= sh_degree self <= 4)%Z ->
  k = Z.to_nat ((sh_degree self + 1) ^ 2 - 1) ->
  _xyz self = T2 3 X -> _features_dc self = T3 1 3 D ->
  _features_rest self = Some (T3 k 3 F) ->
  _opacity self = T2 1 O ->
  _scaling self = T2 3 S -> _rotation self = T2 4 Rt ->
  well_shaped (T2 3 X) -> well_shaped (T3 1 3 D) ->
  well_shaped (T3 k 3 F) -> well_shaped (T2 1 O) ->
  well_shaped (T2 3 S) -> well_shaped (T2 4 Rt) ->
  length D = length X -> length F = length X -> length O = length X ->
  length S = length X -> length Rt = length X ->
  sh_degree fresh = sh_degree self ->
  let a := scaling_activation_type self in
  Forall (Forall (fun x => 0 < decode_scale a x)) S ->
  exists file loaded,
    save_ply self false false = Ok file
    /\ load_ply fresh file = Ok loaded
    /\ _xyz loaded = _xyz self
    /\ _features_dc loaded = _features_dc self
    /\ _features_rest loaded = _features_rest self
    /\ _opacity loaded = _opacity self
    /\ _rotation loaded = _rotation self
    /\ _scaling loaded
       = map_tensor (fun x => ln (decode_scale a x)) (_scaling self)
    /\ (a = Exp -> _scaling loaded = _scaling self).
Proof.
  intros Hdeg Hk HX HD HF HO HS HR WX WD WF WO WS WR LD LF LO LS LR Hf a
    Hpositive.
  cbn [well_shaped] in *.
  assert (Hpos : (0 < sh_degree self)%Z) by lia.
  pose proof (save_standard_positive self k X O S Rt D F
                Hpos HX HD HF HO HS HR LD LF LO LS LR) as Hsave.
  cbv zeta in Hsave.
  set (dc := map (@concat R) (map (transpose_rows 3) D)) in *.
  set (rest := map (@concat R) (map (transpose_rows 3) F)) in *.
  set (S' := map (map (encode_scale (scaling_activation_type self))) S) in *.
  set (C := map (map rgb_of) dc) in *.
  assert (Wdc : Forall (fun r => length r = 3%nat) dc)
    by (apply (Forall_flat_width 1 3 D); exact WD).
  assert (Wrest : Forall (fun r => length r = (3 * k)%nat) rest)
    by (apply (Forall_flat_width k 3 F); exact WF).
  assert (WC : Forall (fun r => length r = 3%nat) C)
    by now apply Forall_length_map.
  assert (WS' : Forall (fun r => length r = 3%nat) S')
    by now apply Forall_length_map.
  destruct (standard_rows_blocks k X C dc rest O S' Rt)
    as (BX & BD & BF & BO & BS & BR); try assumption;
    try (unfold C, dc, rest, S'; rewrite ?length_map; assumption).
  set (d := hstack X (hstack C (hstack dc (hstack rest
              (hstack O (hstack S' Rt)))))) in *.
  assert (Hload :
    load_ply fresh {| properties := standard_dtype k; data := d |} =
    Ok {| sh_degree := sh_degree self;
          _xyz := T2 3 (map (slice 0 3) d);
          _features_dc := T3 1 3 (map (fun row => [slice 6 3 row]) d);
          _features_rest :=
            Some (T3 k 3 (map (transpose_rows k)
                            (map (chunks 3 k) (map (slice 9 (k * 3)) d))));
          _scaling := T2 3 (map (slice (10 + k * 3) 3) d);
          _rotation := T2 4 (map (slice (13 + k * 3) 4) d);
          _opacity := T2 1 (map (slice (9 + k * 3) 1) d);
          scaling_activation_type := scaling_activation_type fresh |}).
  { assert (Hc : sh_degree self = 1%Z \/ sh_degree self = 2%Z
                 \/ sh_degree self = 3%Z \/ sh_degree self = 4%Z) by lia.
    clearbody d. clear - Hc Hk Hf.
    destruct Hc as [E | [E | [E | E]]]; rewrite E in Hk, Hf |- *;
      cbn in Hk; subst k.
    - now apply load_standard_1.
    - now apply load_standard_2.
    - now apply load_standard_3.
    - now apply load_standard_4. }
  exists {| properties := standard_dtype k; data := d |}. eexists.
  split; [exact Hsave | split; [exact Hload |]].
  cbn [_xyz _features_dc _features_rest _opacity _rotation _scaling].
  rewrite HX, HD, HF, HO, HR, HS. cbn [map_tensor].
  rewrite BX, BF, BO, BS, BR.
  rewrite <- (map_map (slice 6 3) (fun r => [r])), BD.
  unfold dc, rest. rewrite dc_layout_inverse, rest_layout_inverse by assumption.
  assert (Hlog : S' = map (map (fun x => ln (decode_scale a x))) S).
  { unfold S'. apply map_ext. intros r. apply map_ext. intros x.
    apply encode_scale_log. }
  repeat split; try reflexivity.
  - now rewrite Hlog.
  - intros Ea. unfold S'. fold a. rewrite Ea. f_equal.
    rewrite <- (map_id S) at 2. apply map_ext. intros r. apply map_id.
Qed.

Lemma save_load_positive_degree_witness :
  exists file loaded,
    save_ply degree1_ones false false = Ok file
    /\ load_ply degree1_empty file = Ok loaded
    /\ _features_dc loaded = _features_dc degree1_ones
    /\ _features_rest loaded = _features_rest degree1_ones.
Proof.
  destruct (save_load_positive_degree degree1_ones degree1_empty 3
              [[0; 0; 0]] [[0]] [[0; 0; 0]] [[1; 0; 0; 0]]
              [[[0; 0; 0]]] [[[1; 1; 1]; [1; 1; 1]; [1; 1; 1]]])
    as (file & loaded & Hs & Hl & _ & Hdc & Hrest & _);
    try reflexivity; try (cbn; lia);
    try (cbn [well_shaped]; repeat constructor);
    try (cbn [degree1_ones scaling_activation_type decode_scale];
         apply exp_pos).
  exists file, loaded. repeat split; assumption.
Defined.

End RoundTripExtras.

(** ** The viewer flag *)

Section ViewerExtras.
Import Py Tensor GaussianModel Examples.

(** X27: for a model whose degree is not positive the viewer flag changes
    nothing: [save_ply] returns the same file, or fails in the same way,
    with and without it. *)
Theorem viewer_flag_irrelevant_degree0 (self : t) (use_fp16 : bool) :
  (sh_degree self <= 0)%Z ->
  save_ply self use_fp16 true = save_ply self use_fp16 false.
Proof.
  intros Hd. unfold save_ply, construct_dtypes.
  replace (sh_degree self >? 0)%Z with false
    by (symmetry; destruct (Z.gtb_spec (sh_degree self) 0); [lia | reflexivity]).
  replace (sh_degree self <=? 3)%Z with true
    by (symmetry; apply Z.leb_le; lia).
  cbn [py_assert bind andb]. destruct use_fp16; reflexivity.
Qed.

Lemma viewer_flag_irrelevant_degree0_witness :
  save_ply (unit_model Exp) false true = save_ply (unit_model Exp) false false.
Proof.
  apply (viewer_flag_irrelevant_degree0 (unit_model Exp) false). cbn. lia.
Defined.

(** X28: for a model of degree 3 whose rest block has the 15 coefficients
    of that degree the viewer flag changes nothing either: no padding is
    added and the properties are the same. *)
Theorem viewer_flag_irrelevant_degree3 (self : t) (use_fp16 : bool)
    (F : list (list (list R))) :
  sh_degree self = 3%Z ->
  _features_rest self = Some (T3 15 3 F) ->
  save_ply self use_fp16 true = save_ply self use_fp16 false.
Proof.
  intros Hd HF. unfold save_ply, construct_dtypes, flattened_rest, rest_tensor.
  rewrite Hd, HF.
  cbn [Z.gtb Z.leb Z.compare Pos.compare Pos.compare_cont py_assert bind andb
       transpose12 flatten1 shape_at].
  destruct use_fp16; cbn [negb andb]; reflexivity.
Qed.

Lemma viewer_flag_irrelevant_degree3_witness :
  let m := {| sh_degree := 3; _xyz := T2 3 []; _features_dc := T3 1 3 [];
              _features_rest := Some (T3 15 3 []); _scaling := T2 3 [];
              _rotation := T2 4 []; _opacity := T2 1 [];
              scaling_activation_type := Exp |} in
  save_ply m false true = save_ply m false false.
Proof.
  intros m.
  apply (viewer_flag_irrelevant_degree3 m false []); reflexivity.
Defined.

End ViewerExtras.
